(** * The project core of the language-service server (src/server/project.ts)

    A shallow embedding of the per-project state machine: the unresolved-imports
    index, the graph update, the delta report, the compiler-option setters of the
    base and inferred projects, the reload latch and the plugin activation of
    configured projects.

    JavaScript values are embedded as follows.
    - A string is the list of its UTF-16 code units ([list N]).
    - A [number] that the code only counts with or compares is a [Z]; the
      counters stay far below 2^53, where [++] is exact.
    - [undefined] is [None].
    - Objects that the code shares by reference and mutates in place (compiler
      options, programs) live in a store and are named by their index in it.
    - A call on a collaborator that is not part of this file (resolution cache,
      script store, watchers, builder, logger, typings cache, project service)
      is recorded as an [Event] in the trace of the state; what the collaborator
      answers is taken from a record of oracles, [Collaborators]. *)

From Stdlib Require Import ZArith NArith String Ascii Lia.
From stdpp Require Import base option list gmap.
Local Open Scope Z_scope.

Abbreviation JsString := (list N).
Abbreviation Path := (list N) (only parsing).

(** The code units of an ASCII literal. *)
Definition js (s : string) : JsString :=
  (fun a => N_of_ascii a) <$> list_ascii_of_string s.

(** ** The string built-ins used by the project core *)
Module JsString.

(** WhiteSpace and LineTerminator code units of ECMAScript, as
    [String.prototype.trim] strips them. *)
Definition isWhiteSpaceOrLineTerminator (c : N) : bool :=
  bool_decide (c ∈ [9; 10; 11; 12; 13; 32; 160; 5760; 8232; 8233; 8239; 8287; 12288; 65279]%N)
  || ((8192 <=? c) && (c <=? 8202))%N.

Fixpoint trimStart (s : JsString) : JsString :=
  match s with
  | c :: rest => if isWhiteSpaceOrLineTerminator c then trimStart rest else s
  | [] => []
  end.

Definition trimEnd (s : JsString) : JsString := reverse (trimStart (reverse s)).

(** [s.trim()] *)
Definition trim (s : JsString) : JsString := trimEnd (trimStart s).

(** Position of the first occurrence of the unit [c] in [s]. *)
Fixpoint firstIndex (c : N) (s : JsString) : option nat :=
  match s with
  | [] => None
  | d :: rest => if (d =? c)%N then Some 0%nat else S <$> firstIndex c rest
  end.

(** [s.indexOf(c, position)] for a search string of the single unit [c]:
    the search starts at [position] clamped to [0 .. length], and the answer
    is -1 when nothing is found. *)
Definition indexOf (s : JsString) (c : N) (position : Z) : Z :=
  let start := Z.to_nat (Z.max 0 position) in
  match firstIndex c (drop start s) with
  | Some k => Z.of_nat (start + k)
  | None => -1
  end.

(** [s.charCodeAt(i)], [None] standing for NaN. *)
Definition charCodeAt (s : JsString) (i : nat) : option N := s !! i.

(** [s.substr(start, len)] *)
Definition substr (s : JsString) (start len : Z) : JsString :=
  let size := Z.of_nat (length s) in
  let from := if start <? 0 then Z.max (size + start) 0 else Z.min start size in
  let n := Z.min (Z.max len 0) (size - from) in
  take (Z.to_nat n) (drop (Z.to_nat from) s).

Definition slash : N := 47.

(** Number of '/' units in a string. *)
Definition countSlashes (s : JsString) : nat :=
  length (filter (fun c => c = slash) s).

End JsString.

(** [CharacterCodes.at] *)
Definition CharacterCodes_at : N := 64.

(** ** [UnresolvedImportsMap] (lines 60-86) *)
Module UnresolvedImportsMap.

Record t := mk {
  perFileMap : gmap (list N) (list (list N));
  version : Z
}.

(** A freshly constructed index: [createMap()] and [version = 0]. *)
Definition create : t := {| perFileMap := ∅; version := 0 |}.

Definition clear (m : t) : t := {| perFileMap := ∅; version := 0 |}.

Definition getVersion (m : t) : Z := version m.

Definition remove (path : Path) (m : t) : t :=
  {| perFileMap := delete path (perFileMap m); version := version m + 1 |}.

Definition get (path : Path) (m : t) : option (list JsString) :=
  perFileMap m !! path.

Definition set (path : Path) (value : list JsString) (m : t) : t :=
  {| perFileMap := <[path := value]> (perFileMap m); version := version m + 1 |}.

End UnresolvedImportsMap.

(** ** Data model *)

Inductive ProjectKind := Inferred | Configured | External.

#[global] Instance ProjectKind_eq_dec : EqDecision ProjectKind.
Proof. solve_decision. Defined.

(** Modelled from the spec: the engine's enum [StructureIsReused] is declared in
    the compiler, outside this file; the glossary has it as the enum saying how
    much of the old program the new one inherits, [Completely] being its top
    value. Its numeric values are the flag bits of the compiler's declaration
    (0, 1 << 0, 1 << 1), which the test at line 680 masks. *)
Inductive StructureIsReused := Not | SafeModules | Completely.

Definition StructureIsReused_value (f : StructureIsReused) : Z :=
  match f with
  | Not => 0
  | SafeModules => Z.shiftl 1 0
  | Completely => Z.shiftl 1 1
  end.

Inductive ScriptKind := SK_Unknown | SK_JS | SK_JSX | SK_TS | SK_TSX | SK_External.

(** The part of a script info the project reads. *)
Record ScriptInfo := {
  si_fileName : JsString;
  si_path : Path;
  si_scriptKind : ScriptKind
}.

Record ResolvedModuleFull := { resolvedFileName : JsString }.

(** A source file of a program. [resolvedModules] is a JavaScript [Map], kept
    as its entries in insertion order; an entry holds [None] when the
    resolution of the specifier failed. *)
Record SourceFile := {
  sf_fileName : JsString;
  sf_path : Path;
  resolvedModules : option (list (JsString * option ResolvedModuleFull))
}.

Record ConfigFile := {
  cf_fileName : JsString;
  extendedSourceFiles : option (list JsString)
}.

(** A program object of the engine. *)
Record Program := {
  sourceFiles : list SourceFile;
  missingFilePaths : list Path;
  externalLibraryFiles : list Path;
  options_configFile : option ConfigFile;
  structureIsReused : StructureIsReused
}.

Definition getSourceFileByPath (p : Program) (path : Path) : option SourceFile :=
  head (filter (fun f => sf_path f = path) (sourceFiles p)).

Definition isSourceFileFromExternalLibrary (p : Program) (f : SourceFile) : bool :=
  bool_decide (sf_path f ∈ externalLibraryFiles p).

Record PluginImport := {
  pi_name : JsString;
  pi_global : bool
}.

(** The compiler options the project core reads or writes; every other
    setting travels in [otherSettings]. *)
Record CompilerOptions := {
  allowNonTsExtensions : option bool;
  allowJs : option bool;
  maxNodeModuleJsDepth : option Z;
  noEmitForJsFiles : option bool;
  opt_plugins : option (list PluginImport);
  otherSettings : list (JsString * JsString)
}.

(** A language service is an object; a plugin hands back another object. *)
Inductive LanguageService := ServiceObject (identity : nat).

(** What a [throw] carries, as the logger renders it. *)
Abbreviation Exn := (list N) (only parsing).

(** A value thrown by the code of a plugin: any JS value. A primitive
    other than a Symbol (a string, a number, a boolean, [null],
    [undefined]) is given by what ToString makes of it; an Error object with
    the standard [toString] by its name and message; an object of another
    sort by what converting it to a string does: it gives a string, or it
    throws (a TypeError for an object without [toString] and [valueOf], such
    as one made with a null prototype, or whatever its [toString] throws). *)
Inductive Thrown :=
| ThrownPrimitive (rendering : JsString)
| ThrownError (name message : JsString)
| ThrownSymbol
| ThrownObject (rendering : JsString)
| ThrownUnconvertible (conversionThrows : Thrown).

(** A TypeError of the engine; the message is the engine's. *)
Definition TypeError (message : JsString) : Thrown :=
  ThrownError (js "TypeError") message.

(** ToString on a thrown value, which a template literal applies to it:
    the string, or what the conversion throws. ToString of a Symbol throws a
    TypeError; [Error.prototype.toString] joins name and message. *)
Definition Thrown_toString (e : Thrown) : Thrown + JsString :=
  match e with
  | ThrownPrimitive rendering => inr rendering
  | ThrownError name message =>
    inr (if bool_decide (name = []) then message
         else if bool_decide (message = []) then name
         else name ++ js ": " ++ message)
  | ThrownSymbol => inl (TypeError (js "Cannot convert a Symbol value to a string"))
  | ThrownObject rendering => inr rendering
  | ThrownUnconvertible conversionThrows => inl conversionThrows
  end.

Record PluginCreateInfo := {
  info_config : PluginImport;
  info_project : JsString;
  info_languageService : LanguageService;
  info_languageServiceHost : JsString;
  info_serverHost : unit
}.

(** A plugin module: [create] wraps a language service or throws;
    [getExternalFiles] is optional and may throw as well; the project it
    is called with is given by its name. *)
Record PluginModule := {
  create : PluginCreateInfo -> Thrown + LanguageService;
  pm_getExternalFiles : option (JsString -> Exn + list JsString)
}.

(** What [require] resolved to: anything that is not a function, or a
    factory, which builds the plugin module or throws. *)
Inductive ResolvedPluginModule :=
| NotAFunction
| Factory (f : unit -> Thrown + PluginModule).

Record RequireResult := {
  rr_module : option ResolvedPluginModule;
  rr_error : option Exn
}.

Record Diagnostic := {
  diag_code : Z;
  diag_file : option JsString
}.

Inductive WatchType :=
  FailedLookupLocation | MissingFilePath | ConfigFilePath | WildcardDirectories | TypeRoot.

Inductive WatcherCloseReason := ProjectClose | NotNeeded | FileCreated | RecursiveChanged.

Inductive LogMessage :=
| PluginsNeedRequire
| LocalPluginLoadingEnabled (local : JsString)
| LoadingModule (moduleName initialDir resolvedPath : JsString)
| FailedToLoadModule (moduleName : JsString) (err : Exn)
| SkippedLoadingPlugin (name : JsString)
| PluginActivationFailed (e : Exn)
| CouldntFindPlugin (name : JsString) (searchPaths : list JsString)
| PluginThrewInGetExternalFiles (e : Exn).

(** Calls on collaborators, in the order the project makes them. *)
Inductive Event :=
| StartRecordingFilesWithChangedResolutions
| CreateHasInvalidatedResolution
| FinishRecordingFilesWithChangedResolutions
| InvalidateResolutionOfFile (path : Path)
| ResolutionCacheClear
| GetProgram
| GetTypingsForProject (unresolvedImports : option (list JsString)) (hasChanges : bool)
| DetachFromProject (fileName : JsString)
| AttachToProject (fileName : JsString)
| AddFileWatcher (type : WatchType) (path : Path)
| CloseFileWatcher (type : WatchType) (path : Path) (reason : WatcherCloseReason)
| BuilderOnProgramUpdateGraph
| BuilderClear
| ReloadConfiguredProject
| LoggerInfo (message : LogMessage).

Abbreviation OptionsRef := nat.
Abbreviation ProgramRef := nat.

(** The project, the objects it shares with its callers and with the engine,
    and the trace of its calls. Fields of a subclass are meaningful for
    projects of that kind only. *)
Record State := {
  (* class Project *)
  projectName : JsString;
  projectKind : ProjectKind;
  rootFiles : list ScriptInfo;
  program : option ProgramRef;
  externalFiles : option (list JsString);
  missingFilesMap : option (list Path);
  cachedUnresolvedImportsPerFile : UnresolvedImportsMap.t;
  lastCachedUnresolvedImportsList : option (list JsString);
  languageService : LanguageService;
  languageServiceEnabled : bool;
  lsHost_compilationSettings : OptionsRef;
  builder : bool;
  updatedFileNames : option (list JsString);
  lastReportedFileNames : option (list JsString);
  lastReportedVersion : Z;
  projectStructureVersion : Z;
  projectStateVersion : Z;
  typingFiles : option (list JsString);
  compilerOptions : OptionsRef;
  (* class InferredProject *)
  _isJsInferredProject : bool;
  (* class ConfiguredProject *)
  canonicalConfigFilePath : JsString;
  pendingReload : bool;
  plugins : list PluginModule;
  projectErrors : list Diagnostic;
  (* shared objects and calls *)
  optionsObjects : list CompilerOptions;
  programObjects : list Program;
  trace : list Event
}.

(** *** Field updates ([this.f = v]) *)

Definition set_rootFiles (v : list ScriptInfo) (s : State) : State :=
  {| projectName := projectName s; projectKind := projectKind s; rootFiles := v;
     program := program s; externalFiles := externalFiles s;
     missingFilesMap := missingFilesMap s;
     cachedUnresolvedImportsPerFile := cachedUnresolvedImportsPerFile s;
     lastCachedUnresolvedImportsList := lastCachedUnresolvedImportsList s;
     languageService := languageService s;
     languageServiceEnabled := languageServiceEnabled s;
     lsHost_compilationSettings := lsHost_compilationSettings s; builder := builder s;
     updatedFileNames := updatedFileNames s;
     lastReportedFileNames := lastReportedFileNames s;
     lastReportedVersion := lastReportedVersion s;
     projectStructureVersion := projectStructureVersion s;
     projectStateVersion := projectStateVersion s; typingFiles := typingFiles s;
     compilerOptions := compilerOptions s;
     _isJsInferredProject := _isJsInferredProject s; canonicalConfigFilePath := canonicalConfigFilePath s;
     pendingReload := pendingReload s;
     plugins := plugins s; projectErrors := projectErrors s;
     optionsObjects := optionsObjects s; programObjects := programObjects s;
     trace := trace s |}.

Definition set_program (v : option ProgramRef) (s : State) : State :=
  {| projectName := projectName s; projectKind := projectKind s; rootFiles := rootFiles s;
     program := v; externalFiles := externalFiles s;
     missingFilesMap := missingFilesMap s;
     cachedUnresolvedImportsPerFile := cachedUnresolvedImportsPerFile s;
     lastCachedUnresolvedImportsList := lastCachedUnresolvedImportsList s;
     languageService := languageService s;
     languageServiceEnabled := languageServiceEnabled s;
     lsHost_compilationSettings := lsHost_compilationSettings s; builder := builder s;
     updatedFileNames := updatedFileNames s;
     lastReportedFileNames := lastReportedFileNames s;
     lastReportedVersion := lastReportedVersion s;
     projectStructureVersion := projectStructureVersion s;
     projectStateVersion := projectStateVersion s; typingFiles := typingFiles s;
     compilerOptions := compilerOptions s;
     _isJsInferredProject := _isJsInferredProject s; canonicalConfigFilePath := canonicalConfigFilePath s;
     pendingReload := pendingReload s;
     plugins := plugins s; projectErrors := projectErrors s;
     optionsObjects := optionsObjects s; programObjects := programObjects s;
     trace := trace s |}.

Definition set_externalFiles (v : option (list JsString)) (s : State) : State :=
  {| projectName := projectName s; projectKind := projectKind s; rootFiles := rootFiles s;
     program := program s; externalFiles := v; missingFilesMap := missingFilesMap s;
     cachedUnresolvedImportsPerFile := cachedUnresolvedImportsPerFile s;
     lastCachedUnresolvedImportsList := lastCachedUnresolvedImportsList s;
     languageService := languageService s;
     languageServiceEnabled := languageServiceEnabled s;
     lsHost_compilationSettings := lsHost_compilationSettings s; builder := builder s;
     updatedFileNames := updatedFileNames s;
     lastReportedFileNames := lastReportedFileNames s;
     lastReportedVersion := lastReportedVersion s;
     projectStructureVersion := projectStructureVersion s;
     projectStateVersion := projectStateVersion s; typingFiles := typingFiles s;
     compilerOptions := compilerOptions s;
     _isJsInferredProject := _isJsInferredProject s; canonicalConfigFilePath := canonicalConfigFilePath s;
     pendingReload := pendingReload s;
     plugins := plugins s; projectErrors := projectErrors s;
     optionsObjects := optionsObjects s; programObjects := programObjects s;
     trace := trace s |}.

Definition set_missingFilesMap (v : option (list Path)) (s : State) : State :=
  {| projectName := projectName s; projectKind := projectKind s; rootFiles := rootFiles s;
     program := program s; externalFiles := externalFiles s; missingFilesMap := v;
     cachedUnresolvedImportsPerFile := cachedUnresolvedImportsPerFile s;
     lastCachedUnresolvedImportsList := lastCachedUnresolvedImportsList s;
     languageService := languageService s;
     languageServiceEnabled := languageServiceEnabled s;
     lsHost_compilationSettings := lsHost_compilationSettings s; builder := builder s;
     updatedFileNames := updatedFileNames s;
     lastReportedFileNames := lastReportedFileNames s;
     lastReportedVersion := lastReportedVersion s;
     projectStructureVersion := projectStructureVersion s;
     projectStateVersion := projectStateVersion s; typingFiles := typingFiles s;
     compilerOptions := compilerOptions s;
     _isJsInferredProject := _isJsInferredProject s; canonicalConfigFilePath := canonicalConfigFilePath s;
     pendingReload := pendingReload s;
     plugins := plugins s; projectErrors := projectErrors s;
     optionsObjects := optionsObjects s; programObjects := programObjects s;
     trace := trace s |}.

Definition set_cachedUnresolvedImportsPerFile (v : UnresolvedImportsMap.t) (s : State) : State :=
  {| projectName := projectName s; projectKind := projectKind s; rootFiles := rootFiles s;
     program := program s; externalFiles := externalFiles s;
     missingFilesMap := missingFilesMap s; cachedUnresolvedImportsPerFile := v;
     lastCachedUnresolvedImportsList := lastCachedUnresolvedImportsList s;
     languageService := languageService s;
     languageServiceEnabled := languageServiceEnabled s;
     lsHost_compilationSettings := lsHost_compilationSettings s; builder := builder s;
     updatedFileNames := updatedFileNames s;
     lastReportedFileNames := lastReportedFileNames s;
     lastReportedVersion := lastReportedVersion s;
     projectStructureVersion := projectStructureVersion s;
     projectStateVersion := projectStateVersion s; typingFiles := typingFiles s;
     compilerOptions := compilerOptions s;
     _isJsInferredProject := _isJsInferredProject s; canonicalConfigFilePath := canonicalConfigFilePath s;
     pendingReload := pendingReload s;
     plugins := plugins s; projectErrors := projectErrors s;
     optionsObjects := optionsObjects s; programObjects := programObjects s;
     trace := trace s |}.

Definition set_lastCachedUnresolvedImportsList (v : option (list JsString)) (s : State) : State :=
  {| projectName := projectName s; projectKind := projectKind s; rootFiles := rootFiles s;
     program := program s; externalFiles := externalFiles s;
     missingFilesMap := missingFilesMap s;
     cachedUnresolvedImportsPerFile := cachedUnresolvedImportsPerFile s;
     lastCachedUnresolvedImportsList := v; languageService := languageService s;
     languageServiceEnabled := languageServiceEnabled s;
     lsHost_compilationSettings := lsHost_compilationSettings s; builder := builder s;
     updatedFileNames := updatedFileNames s;
     lastReportedFileNames := lastReportedFileNames s;
     lastReportedVersion := lastReportedVersion s;
     projectStructureVersion := projectStructureVersion s;
     projectStateVersion := projectStateVersion s; typingFiles := typingFiles s;
     compilerOptions := compilerOptions s;
     _isJsInferredProject := _isJsInferredProject s; canonicalConfigFilePath := canonicalConfigFilePath s;
     pendingReload := pendingReload s;
     plugins := plugins s; projectErrors := projectErrors s;
     optionsObjects := optionsObjects s; programObjects := programObjects s;
     trace := trace s |}.

Definition set_languageService (v : LanguageService) (s : State) : State :=
  {| projectName := projectName s; projectKind := projectKind s; rootFiles := rootFiles s;
     program := program s; externalFiles := externalFiles s;
     missingFilesMap := missingFilesMap s;
     cachedUnresolvedImportsPerFile := cachedUnresolvedImportsPerFile s;
     lastCachedUnresolvedImportsList := lastCachedUnresolvedImportsList s;
     languageService := v; languageServiceEnabled := languageServiceEnabled s;
     lsHost_compilationSettings := lsHost_compilationSettings s; builder := builder s;
     updatedFileNames := updatedFileNames s;
     lastReportedFileNames := lastReportedFileNames s;
     lastReportedVersion := lastReportedVersion s;
     projectStructureVersion := projectStructureVersion s;
     projectStateVersion := projectStateVersion s; typingFiles := typingFiles s;
     compilerOptions := compilerOptions s;
     _isJsInferredProject := _isJsInferredProject s; canonicalConfigFilePath := canonicalConfigFilePath s;
     pendingReload := pendingReload s;
     plugins := plugins s; projectErrors := projectErrors s;
     optionsObjects := optionsObjects s; programObjects := programObjects s;
     trace := trace s |}.

Definition set_lsHost_compilationSettings (v : OptionsRef) (s : State) : State :=
  {| projectName := projectName s; projectKind := projectKind s; rootFiles := rootFiles s;
     program := program s; externalFiles := externalFiles s;
     missingFilesMap := missingFilesMap s;
     cachedUnresolvedImportsPerFile := cachedUnresolvedImportsPerFile s;
     lastCachedUnresolvedImportsList := lastCachedUnresolvedImportsList s;
     languageService := languageService s;
     languageServiceEnabled := languageServiceEnabled s;
     lsHost_compilationSettings := v; builder := builder s;
     updatedFileNames := updatedFileNames s;
     lastReportedFileNames := lastReportedFileNames s;
     lastReportedVersion := lastReportedVersion s;
     projectStructureVersion := projectStructureVersion s;
     projectStateVersion := projectStateVersion s; typingFiles := typingFiles s;
     compilerOptions := compilerOptions s;
     _isJsInferredProject := _isJsInferredProject s; canonicalConfigFilePath := canonicalConfigFilePath s;
     pendingReload := pendingReload s;
     plugins := plugins s; projectErrors := projectErrors s;
     optionsObjects := optionsObjects s; programObjects := programObjects s;
     trace := trace s |}.

Definition set_updatedFileNames (v : option (list JsString)) (s : State) : State :=
  {| projectName := projectName s; projectKind := projectKind s; rootFiles := rootFiles s;
     program := program s; externalFiles := externalFiles s;
     missingFilesMap := missingFilesMap s;
     cachedUnresolvedImportsPerFile := cachedUnresolvedImportsPerFile s;
     lastCachedUnresolvedImportsList := lastCachedUnresolvedImportsList s;
     languageService := languageService s;
     languageServiceEnabled := languageServiceEnabled s;
     lsHost_compilationSettings := lsHost_compilationSettings s; builder := builder s;
     updatedFileNames := v; lastReportedFileNames := lastReportedFileNames s;
     lastReportedVersion := lastReportedVersion s;
     projectStructureVersion := projectStructureVersion s;
     projectStateVersion := projectStateVersion s; typingFiles := typingFiles s;
     compilerOptions := compilerOptions s;
     _isJsInferredProject := _isJsInferredProject s; canonicalConfigFilePath := canonicalConfigFilePath s;
     pendingReload := pendingReload s;
     plugins := plugins s; projectErrors := projectErrors s;
     optionsObjects := optionsObjects s; programObjects := programObjects s;
     trace := trace s |}.

Definition set_lastReportedFileNames (v : option (list JsString)) (s : State) : State :=
  {| projectName := projectName s; projectKind := projectKind s; rootFiles := rootFiles s;
     program := program s; externalFiles := externalFiles s;
     missingFilesMap := missingFilesMap s;
     cachedUnresolvedImportsPerFile := cachedUnresolvedImportsPerFile s;
     lastCachedUnresolvedImportsList := lastCachedUnresolvedImportsList s;
     languageService := languageService s;
     languageServiceEnabled := languageServiceEnabled s;
     lsHost_compilationSettings := lsHost_compilationSettings s; builder := builder s;
     updatedFileNames := updatedFileNames s; lastReportedFileNames := v;
     lastReportedVersion := lastReportedVersion s;
     projectStructureVersion := projectStructureVersion s;
     projectStateVersion := projectStateVersion s; typingFiles := typingFiles s;
     compilerOptions := compilerOptions s;
     _isJsInferredProject := _isJsInferredProject s; canonicalConfigFilePath := canonicalConfigFilePath s;
     pendingReload := pendingReload s;
     plugins := plugins s; projectErrors := projectErrors s;
     optionsObjects := optionsObjects s; programObjects := programObjects s;
     trace := trace s |}.

Definition set_lastReportedVersion (v : Z) (s : State) : State :=
  {| projectName := projectName s; projectKind := projectKind s; rootFiles := rootFiles s;
     program := program s; externalFiles := externalFiles s;
     missingFilesMap := missingFilesMap s;
     cachedUnresolvedImportsPerFile := cachedUnresolvedImportsPerFile s;
     lastCachedUnresolvedImportsList := lastCachedUnresolvedImportsList s;
     languageService := languageService s;
     languageServiceEnabled := languageServiceEnabled s;
     lsHost_compilationSettings := lsHost_compilationSettings s; builder := builder s;
     updatedFileNames := updatedFileNames s;
     lastReportedFileNames := lastReportedFileNames s; lastReportedVersion := v;
     projectStructureVersion := projectStructureVersion s;
     projectStateVersion := projectStateVersion s; typingFiles := typingFiles s;
     compilerOptions := compilerOptions s;
     _isJsInferredProject := _isJsInferredProject s; canonicalConfigFilePath := canonicalConfigFilePath s;
     pendingReload := pendingReload s;
     plugins := plugins s; projectErrors := projectErrors s;
     optionsObjects := optionsObjects s; programObjects := programObjects s;
     trace := trace s |}.

Definition set_projectStructureVersion (v : Z) (s : State) : State :=
  {| projectName := projectName s; projectKind := projectKind s; rootFiles := rootFiles s;
     program := program s; externalFiles := externalFiles s;
     missingFilesMap := missingFilesMap s;
     cachedUnresolvedImportsPerFile := cachedUnresolvedImportsPerFile s;
     lastCachedUnresolvedImportsList := lastCachedUnresolvedImportsList s;
     languageService := languageService s;
     languageServiceEnabled := languageServiceEnabled s;
     lsHost_compilationSettings := lsHost_compilationSettings s; builder := builder s;
     updatedFileNames := updatedFileNames s;
     lastReportedFileNames := lastReportedFileNames s;
     lastReportedVersion := lastReportedVersion s; projectStructureVersion := v;
     projectStateVersion := projectStateVersion s; typingFiles := typingFiles s;
     compilerOptions := compilerOptions s;
     _isJsInferredProject := _isJsInferredProject s; canonicalConfigFilePath := canonicalConfigFilePath s;
     pendingReload := pendingReload s;
     plugins := plugins s; projectErrors := projectErrors s;
     optionsObjects := optionsObjects s; programObjects := programObjects s;
     trace := trace s |}.

Definition set_projectStateVersion (v : Z) (s : State) : State :=
  {| projectName := projectName s; projectKind := projectKind s; rootFiles := rootFiles s;
     program := program s; externalFiles := externalFiles s;
     missingFilesMap := missingFilesMap s;
     cachedUnresolvedImportsPerFile := cachedUnresolvedImportsPerFile s;
     lastCachedUnresolvedImportsList := lastCachedUnresolvedImportsList s;
     languageService := languageService s;
     languageServiceEnabled := languageServiceEnabled s;
     lsHost_compilationSettings := lsHost_compilationSettings s; builder := builder s;
     updatedFileNames := updatedFileNames s;
     lastReportedFileNames := lastReportedFileNames s;
     lastReportedVersion := lastReportedVersion s;
     projectStructureVersion := projectStructureVersion s; projectStateVersion := v;
     typingFiles := typingFiles s; compilerOptions := compilerOptions s;
     _isJsInferredProject := _isJsInferredProject s; canonicalConfigFilePath := canonicalConfigFilePath s;
     pendingReload := pendingReload s;
     plugins := plugins s; projectErrors := projectErrors s;
     optionsObjects := optionsObjects s; programObjects := programObjects s;
     trace := trace s |}.

Definition set_typingFiles (v : option (list JsString)) (s : State) : State :=
  {| projectName := projectName s; projectKind := projectKind s; rootFiles := rootFiles s;
     program := program s; externalFiles := externalFiles s;
     missingFilesMap := missingFilesMap s;
     cachedUnresolvedImportsPerFile := cachedUnresolvedImportsPerFile s;
     lastCachedUnresolvedImportsList := lastCachedUnresolvedImportsList s;
     languageService := languageService s;
     languageServiceEnabled := languageServiceEnabled s;
     lsHost_compilationSettings := lsHost_compilationSettings s; builder := builder s;
     updatedFileNames := updatedFileNames s;
     lastReportedFileNames := lastReportedFileNames s;
     lastReportedVersion := lastReportedVersion s;
     projectStructureVersion := projectStructureVersion s;
     projectStateVersion := projectStateVersion s; typingFiles := v;
     compilerOptions := compilerOptions s;
     _isJsInferredProject := _isJsInferredProject s; canonicalConfigFilePath := canonicalConfigFilePath s;
     pendingReload := pendingReload s;
     plugins := plugins s; projectErrors := projectErrors s;
     optionsObjects := optionsObjects s; programObjects := programObjects s;
     trace := trace s |}.

Definition set_compilerOptions (v : OptionsRef) (s : State) : State :=
  {| projectName := projectName s; projectKind := projectKind s; rootFiles := rootFiles s;
     program := program s; externalFiles := externalFiles s;
     missingFilesMap := missingFilesMap s;
     cachedUnresolvedImportsPerFile := cachedUnresolvedImportsPerFile s;
     lastCachedUnresolvedImportsList := lastCachedUnresolvedImportsList s;
     languageService := languageService s;
     languageServiceEnabled := languageServiceEnabled s;
     lsHost_compilationSettings := lsHost_compilationSettings s; builder := builder s;
     updatedFileNames := updatedFileNames s;
     lastReportedFileNames := lastReportedFileNames s;
     lastReportedVersion := lastReportedVersion s;
     projectStructureVersion := projectStructureVersion s;
     projectStateVersion := projectStateVersion s; typingFiles := typingFiles s;
     compilerOptions := v; _isJsInferredProject := _isJsInferredProject s;
     canonicalConfigFilePath := canonicalConfigFilePath s;
     pendingReload := pendingReload s; plugins := plugins s;
     projectErrors := projectErrors s; optionsObjects := optionsObjects s;
     programObjects := programObjects s; trace := trace s |}.

Definition set_isJsInferredProject (v : bool) (s : State) : State :=
  {| projectName := projectName s; projectKind := projectKind s; rootFiles := rootFiles s;
     program := program s; externalFiles := externalFiles s;
     missingFilesMap := missingFilesMap s;
     cachedUnresolvedImportsPerFile := cachedUnresolvedImportsPerFile s;
     lastCachedUnresolvedImportsList := lastCachedUnresolvedImportsList s;
     languageService := languageService s;
     languageServiceEnabled := languageServiceEnabled s;
     lsHost_compilationSettings := lsHost_compilationSettings s; builder := builder s;
     updatedFileNames := updatedFileNames s;
     lastReportedFileNames := lastReportedFileNames s;
     lastReportedVersion := lastReportedVersion s;
     projectStructureVersion := projectStructureVersion s;
     projectStateVersion := projectStateVersion s; typingFiles := typingFiles s;
     compilerOptions := compilerOptions s; _isJsInferredProject := v;
     canonicalConfigFilePath := canonicalConfigFilePath s;
     pendingReload := pendingReload s; plugins := plugins s;
     projectErrors := projectErrors s; optionsObjects := optionsObjects s;
     programObjects := programObjects s; trace := trace s |}.

Definition set_pendingReload (v : bool) (s : State) : State :=
  {| projectName := projectName s; projectKind := projectKind s; rootFiles := rootFiles s;
     program := program s; externalFiles := externalFiles s;
     missingFilesMap := missingFilesMap s;
     cachedUnresolvedImportsPerFile := cachedUnresolvedImportsPerFile s;
     lastCachedUnresolvedImportsList := lastCachedUnresolvedImportsList s;
     languageService := languageService s;
     languageServiceEnabled := languageServiceEnabled s;
     lsHost_compilationSettings := lsHost_compilationSettings s; builder := builder s;
     updatedFileNames := updatedFileNames s;
     lastReportedFileNames := lastReportedFileNames s;
     lastReportedVersion := lastReportedVersion s;
     projectStructureVersion := projectStructureVersion s;
     projectStateVersion := projectStateVersion s; typingFiles := typingFiles s;
     compilerOptions := compilerOptions s;
     _isJsInferredProject := _isJsInferredProject s; canonicalConfigFilePath := canonicalConfigFilePath s;
     pendingReload := v;
     plugins := plugins s; projectErrors := projectErrors s;
     optionsObjects := optionsObjects s; programObjects := programObjects s;
     trace := trace s |}.

Definition set_plugins (v : list PluginModule) (s : State) : State :=
  {| projectName := projectName s; projectKind := projectKind s; rootFiles := rootFiles s;
     program := program s; externalFiles := externalFiles s;
     missingFilesMap := missingFilesMap s;
     cachedUnresolvedImportsPerFile := cachedUnresolvedImportsPerFile s;
     lastCachedUnresolvedImportsList := lastCachedUnresolvedImportsList s;
     languageService := languageService s;
     languageServiceEnabled := languageServiceEnabled s;
     lsHost_compilationSettings := lsHost_compilationSettings s; builder := builder s;
     updatedFileNames := updatedFileNames s;
     lastReportedFileNames := lastReportedFileNames s;
     lastReportedVersion := lastReportedVersion s;
     projectStructureVersion := projectStructureVersion s;
     projectStateVersion := projectStateVersion s; typingFiles := typingFiles s;
     compilerOptions := compilerOptions s;
     _isJsInferredProject := _isJsInferredProject s; canonicalConfigFilePath := canonicalConfigFilePath s;
     pendingReload := pendingReload s;
     plugins := v; projectErrors := projectErrors s; optionsObjects := optionsObjects s;
     programObjects := programObjects s; trace := trace s |}.

Definition set_optionsObjects (v : list CompilerOptions) (s : State) : State :=
  {| projectName := projectName s; projectKind := projectKind s; rootFiles := rootFiles s;
     program := program s; externalFiles := externalFiles s;
     missingFilesMap := missingFilesMap s;
     cachedUnresolvedImportsPerFile := cachedUnresolvedImportsPerFile s;
     lastCachedUnresolvedImportsList := lastCachedUnresolvedImportsList s;
     languageService := languageService s;
     languageServiceEnabled := languageServiceEnabled s;
     lsHost_compilationSettings := lsHost_compilationSettings s; builder := builder s;
     updatedFileNames := updatedFileNames s;
     lastReportedFileNames := lastReportedFileNames s;
     lastReportedVersion := lastReportedVersion s;
     projectStructureVersion := projectStructureVersion s;
     projectStateVersion := projectStateVersion s; typingFiles := typingFiles s;
     compilerOptions := compilerOptions s;
     _isJsInferredProject := _isJsInferredProject s; canonicalConfigFilePath := canonicalConfigFilePath s;
     pendingReload := pendingReload s;
     plugins := plugins s; projectErrors := projectErrors s; optionsObjects := v;
     programObjects := programObjects s; trace := trace s |}.

Definition set_programObjects (v : list Program) (s : State) : State :=
  {| projectName := projectName s; projectKind := projectKind s; rootFiles := rootFiles s;
     program := program s; externalFiles := externalFiles s;
     missingFilesMap := missingFilesMap s;
     cachedUnresolvedImportsPerFile := cachedUnresolvedImportsPerFile s;
     lastCachedUnresolvedImportsList := lastCachedUnresolvedImportsList s;
     languageService := languageService s;
     languageServiceEnabled := languageServiceEnabled s;
     lsHost_compilationSettings := lsHost_compilationSettings s; builder := builder s;
     updatedFileNames := updatedFileNames s;
     lastReportedFileNames := lastReportedFileNames s;
     lastReportedVersion := lastReportedVersion s;
     projectStructureVersion := projectStructureVersion s;
     projectStateVersion := projectStateVersion s; typingFiles := typingFiles s;
     compilerOptions := compilerOptions s;
     _isJsInferredProject := _isJsInferredProject s; canonicalConfigFilePath := canonicalConfigFilePath s;
     pendingReload := pendingReload s;
     plugins := plugins s; projectErrors := projectErrors s;
     optionsObjects := optionsObjects s; programObjects := v; trace := trace s |}.

Definition set_trace (v : list Event) (s : State) : State :=
  {| projectName := projectName s; projectKind := projectKind s; rootFiles := rootFiles s;
     program := program s; externalFiles := externalFiles s;
     missingFilesMap := missingFilesMap s;
     cachedUnresolvedImportsPerFile := cachedUnresolvedImportsPerFile s;
     lastCachedUnresolvedImportsList := lastCachedUnresolvedImportsList s;
     languageService := languageService s;
     languageServiceEnabled := languageServiceEnabled s;
     lsHost_compilationSettings := lsHost_compilationSettings s; builder := builder s;
     updatedFileNames := updatedFileNames s;
     lastReportedFileNames := lastReportedFileNames s;
     lastReportedVersion := lastReportedVersion s;
     projectStructureVersion := projectStructureVersion s;
     projectStateVersion := projectStateVersion s; typingFiles := typingFiles s;
     compilerOptions := compilerOptions s;
     _isJsInferredProject := _isJsInferredProject s; canonicalConfigFilePath := canonicalConfigFilePath s;
     pendingReload := pendingReload s;
     plugins := plugins s; projectErrors := projectErrors s;
     optionsObjects := optionsObjects s; programObjects := programObjects s; trace := v |}.

(** *** Updates of a compiler-options object ([options.f = v]) *)

Definition set_allowNonTsExtensions (v : option bool) (o : CompilerOptions) : CompilerOptions :=
  {| allowNonTsExtensions := v; allowJs := allowJs o;
     maxNodeModuleJsDepth := maxNodeModuleJsDepth o; noEmitForJsFiles := noEmitForJsFiles o;
     opt_plugins := opt_plugins o; otherSettings := otherSettings o |}.

Definition set_allowJs (v : option bool) (o : CompilerOptions) : CompilerOptions :=
  {| allowNonTsExtensions := allowNonTsExtensions o; allowJs := v;
     maxNodeModuleJsDepth := maxNodeModuleJsDepth o; noEmitForJsFiles := noEmitForJsFiles o;
     opt_plugins := opt_plugins o; otherSettings := otherSettings o |}.

Definition set_maxNodeModuleJsDepth (v : option Z) (o : CompilerOptions) : CompilerOptions :=
  {| allowNonTsExtensions := allowNonTsExtensions o; allowJs := allowJs o;
     maxNodeModuleJsDepth := v; noEmitForJsFiles := noEmitForJsFiles o;
     opt_plugins := opt_plugins o; otherSettings := otherSettings o |}.

Definition set_noEmitForJsFiles (v : option bool) (o : CompilerOptions) : CompilerOptions :=
  {| allowNonTsExtensions := allowNonTsExtensions o; allowJs := allowJs o;
     maxNodeModuleJsDepth := maxNodeModuleJsDepth o; noEmitForJsFiles := v;
     opt_plugins := opt_plugins o; otherSettings := otherSettings o |}.

(** The object [{}]. *)
Definition emptyOptions : CompilerOptions :=
  {| allowNonTsExtensions := None; allowJs := None; maxNodeModuleJsDepth := None;
     noEmitForJsFiles := None; opt_plugins := None; otherSettings := [] |}.

Definition emptyProgram : Program :=
  {| sourceFiles := []; missingFilePaths := []; externalLibraryFiles := [];
     options_configFile := None; structureIsReused := Not |}.

(** Reading through a reference. Every reference a project holds names an
    object of the store; the default only makes the reading total. *)
Definition optionsAt (s : State) (r : OptionsRef) : CompilerOptions :=
  default emptyOptions (optionsObjects s !! r).

Definition programAt (s : State) (r : ProgramRef) : Program :=
  default emptyProgram (programObjects s !! r).

(** Writing through a reference: the object is changed in place, for every
    holder of the reference. *)
Definition updateOptionsAt (r : OptionsRef) (f : CompilerOptions -> CompilerOptions)
    (s : State) : State :=
  set_optionsObjects (alter f r (optionsObjects s)) s.

(** ** Collaborators *)

(** What [languageService.getProgram()] leaves behind: the program objects
    (building a program from an old one stamps the old one's
    [structureIsReused]), the program now current, and the roots as the
    host's callbacks into the project leave them. *)
Record EngineAnswer := {
  ea_programObjects : list Program;
  ea_program : ProgramRef;
  ea_rootFiles : list ScriptInfo
}.

(** One callback of [enumerateInsertsAndDeletes]. *)
Inductive InsertOrDelete := Inserted (x : JsString) | Removed (x : JsString).

(** The helpers and services that the project core calls and that are
    defined outside it. The theorems hold whatever they answer. *)
Record Collaborators := {
  (* helpers of the compiler and of the server utilities *)
  changesAffectModuleResolution : CompilerOptions -> CompilerOptions -> bool;
  isExternalModuleNameRelative : JsString -> bool;
  toDeduplicatedSortedArray : list JsString -> list JsString;
  toSortedArray : list JsString -> list JsString;
  enumerateInsertsAndDeletes : list JsString -> list JsString -> list InsertOrDelete;
  getDefaultLibFilePath : CompilerOptions -> JsString;
  combinePaths : JsString -> JsString -> JsString;
  normalizeSlashes : JsString -> JsString;
  getDirectoryPath : JsString -> JsString;
  (* the engine, the resolution cache, the script store, the typings cache *)
  getProgram : State -> EngineAnswer;
  finishRecordingFilesWithChangedResolutions : State -> option (list Path);
  getScriptInfo : State -> JsString -> option ScriptInfo;
  getOrCreateScriptInfo : State -> JsString -> ScriptInfo;
  getTypingsForProject : State -> option (list JsString) -> bool -> list JsString;
  (* the project service and the server host *)
  reloadConfiguredProject : State -> State;
  host_require : option (JsString -> JsString -> RequireResult);
  host_resolvePath : JsString -> JsString;
  getExecutingFilePath : JsString;
  pluginProbeLocations : list JsString;
  allowLocalPluginLoads : bool;
  globalPlugins : option (list JsString)
}.

(** ** The methods run in a state monad over [State] *)

Definition M (A : Type) : Type := State -> A * State.

Definition ret {A} (a : A) : M A := fun s => (a, s).

Definition bind {A B} (m : M A) (k : A -> M B) : M B :=
  fun s => let (a, s') := m s in k a s'.

Notation "x <- c1 ;; c2" := (bind c1 (fun x => c2))
  (at level 100, c1 at next level, right associativity).
Notation "c1 ;; c2" := (bind c1 (fun _ => c2))
  (at level 100, right associativity).

Definition get : M State := fun s => (s, s).

Definition modify (f : State -> State) : M unit := fun s => (tt, f s).

(** Record a call on a collaborator. *)
Definition emit (e : Event) : M unit :=
  modify (fun s => set_trace (trace s ++ [e]) s).

(** [for (const x of l) body(x)] *)
Fixpoint forEach {A} (l : list A) (body : A -> M unit) : M unit :=
  match l with
  | [] => ret tt
  | x :: rest => body x ;; forEach rest body
  end.

Definition when (b : bool) (m : M unit) : M unit := if b then m else ret tt.

(** The answer of a method and the state it leaves. *)
Definition evalM {A} (m : M A) (s : State) : A := fst (m s).
Definition execM {A} (m : M A) (s : State) : State := snd (m s).

(** ** Helpers of the compiler's core that the methods below rely on *)

(** Modelled from the spec: [arrayIsEqualTo] (compiler core) compares two
    arrays element-wise; an absent array equals an absent array only. *)
Fixpoint elementsEqual (a b : list JsString) : bool :=
  match a, b with
  | [], [] => true
  | x :: a', y :: b' => bool_decide (x = y) && elementsEqual a' b'
  | _, _ => false
  end.

Definition arrayIsEqualTo (a b : option (list JsString)) : bool :=
  match a, b with
  | Some x, Some y => elementsEqual x y
  | None, None => true
  | _, _ => false
  end.

(** Modelled from the spec: [arrayToSet] (compiler core) makes the set of
    the strings of an array, a [Map<true>]; it is kept as its keys in
    insertion order. *)
Definition setAdd (keys : list JsString) (k : JsString) : list JsString :=
  if bool_decide (k ∈ keys) then keys else keys ++ [k].

Definition arrayToSet (l : list JsString) : list JsString := foldl setAdd [] l.

Definition setHas (keys : list JsString) (k : JsString) : bool := bool_decide (k ∈ keys).

(** JavaScript truthiness of a number. *)
Definition truthy (n : Z) : bool := negb (n =? 0).

(** ** What [getChangesSinceVersion] answers *)

Record ProjectInfo := {
  info_projectName : JsString;
  info_version : Z;
  isInferred : bool;
  info_options : OptionsRef;
  languageServiceDisabled : bool
}.

Record ProjectChanges := {
  added : list JsString;
  removed : list JsString;
  updated : list JsString
}.

(** [files] and [changes] are optional properties of the answer. *)
Record ProjectFilesWithTSDiagnostics := {
  pf_info : ProjectInfo;
  pf_files : option (list JsString);
  pf_changes : option ProjectChanges;
  pf_projectErrors : list Diagnostic
}.

Section Methods.

Context (co : Collaborators).

(** *** [Project] *)

(** [markAsDirty] (lines 572-574) *)
Definition Project_markAsDirty : M unit :=
  modify (fun s => set_projectStateVersion (projectStateVersion s + 1) s).

(** [registerFileUpdate] (lines 568-570) *)
Definition Project_registerFileUpdate (fileName : JsString) : M unit :=
  modify (fun s =>
    set_updatedFileNames (Some (setAdd (default [] (updatedFileNames s)) fileName)) s).

(** The body of the callback at lines 592-599: the name under which an
    unresolved import is recorded. *)
Definition unresolvedImportName (name : JsString) : JsString :=
  let trimmed := JsString.trim name in
  let i := JsString.indexOf trimmed JsString.slash 0 in
  let i :=
    if negb (i =? -1)
       && bool_decide (JsString.charCodeAt trimmed 0 = Some CharacterCodes_at)
    then JsString.indexOf trimmed JsString.slash (i + 1)
    else i in
  if negb (i =? -1) then JsString.substr trimmed 0 i else trimmed.

(** One round of the [forEach] at lines 587-603, on the local
    [unresolvedImports] and on the sink [result]. *)
Definition pickUnresolved (acc : option (list JsString) * list JsString)
    (entry : JsString * option ResolvedModuleFull)
    : option (list JsString) * list JsString :=
  let (unresolvedImports, result) := acc in
  let (name, resolvedModule) := entry in
  if negb (bool_decide (is_Some resolvedModule))
     && negb (isExternalModuleNameRelative co name)
  then
    let trimmed := unresolvedImportName name in
    (Some (default [] unresolvedImports ++ [trimmed]), result ++ [trimmed])
  else acc.

(** [extractUnresolvedImportsFromSourceFile] (lines 576-606). The sink
    [result] is passed in and handed back. *)
Definition Project_extractUnresolvedImportsFromSourceFile
    (file : SourceFile) (result : list JsString) : M (list JsString) :=
  s <- get ;;
  match UnresolvedImportsMap.get (sf_path file) (cachedUnresolvedImportsPerFile s) with
  | Some cached => ret (result ++ cached)
  | None =>
    let (unresolvedImports, result) :=
      match resolvedModules file with
      | Some entries => foldl pickUnresolved (None, result) entries
      | None => (None, result)
      end in
    modify (fun s =>
      set_cachedUnresolvedImportsPerFile
        (UnresolvedImportsMap.set (sf_path file) (default [] unresolvedImports)
           (cachedUnresolvedImportsPerFile s)) s) ;;
    ret result
  end.

(** [for (const sourceFile of files) extract(sourceFile, result)] *)
Fixpoint extractAll (files : list SourceFile) (result : list JsString)
    : M (list JsString) :=
  match files with
  | [] => ret result
  | f :: rest =>
    result <- Project_extractUnresolvedImportsFromSourceFile f result ;;
    extractAll rest result
  end.

(** [ConfiguredProject.getExternalFiles] (lines 1152-1162); the base
    class answers the empty array (lines 343-345). *)
Fixpoint pluginExternalFiles (ps : list PluginModule) (acc : list JsString)
    : M (list JsString) :=
  match ps with
  | [] => ret acc
  | plugin :: rest =>
    match pm_getExternalFiles plugin with
    | None => pluginExternalFiles rest acc
    | Some getExternalFiles =>
      s <- get ;;
      match getExternalFiles (projectName s) with
      | inr files => pluginExternalFiles rest (acc ++ files)
      | inl e =>
        emit (LoggerInfo (PluginThrewInGetExternalFiles e)) ;;
        pluginExternalFiles rest acc
      end
    end
  end.

Definition ConfiguredProject_getExternalFiles : M (list JsString) :=
  s <- get ;;
  files <- pluginExternalFiles (plugins s) [] ;;
  ret (toSortedArray co files).

Definition getExternalFiles : M (list JsString) :=
  s <- get ;;
  match projectKind s with
  | Configured => ConfiguredProject_getExternalFiles
  | _ => ret []
  end.

(** Modelled from the spec: [updateMissingFilePathsWatch] (compiler
    utilities) reconciles the missing-files map with the missing paths of
    the program: the watcher of a path no longer missing is closed
    (reason NotNeeded), a watcher is made for each newly missing path. *)
Definition updateMissingFilePathsWatch (p : Program) : M unit :=
  s <- get ;;
  let existing := default [] (missingFilesMap s) in
  let newMissing := arrayToSet (missingFilePaths p) in
  forEach existing (fun key =>
    when (negb (setHas newMissing key))
      (emit (CloseFileWatcher MissingFilePath key NotNeeded))) ;;
  forEach newMissing (fun key =>
    when (negb (setHas existing key))
      (emit (AddFileWatcher MissingFilePath key))) ;;
  modify (set_missingFilesMap
    (Some (filter (fun key => key ∈ newMissing) existing
           ++ filter (fun key => key ∉ existing) newMissing))).

(** The test of line 680, with [newProgram] for [this.program]. *)
Definition hasChangesTest (oldProgram : option ProgramRef) (newProgram : ProgramRef)
    (s : State) : bool :=
  match oldProgram with
  | None => true
  | Some old =>
    negb (Nat.eqb newProgram old)
    && negb (truthy (Z.land (StructureIsReused_value (structureIsReused (programAt s old)))
                            (StructureIsReused_value Completely)))
  end.

(** [updateGraphWorker] (lines 673-726) *)
Definition Project_updateGraphWorker : M bool :=
  s <- get ;;
  let oldProgram := program s in
  emit GetProgram ;;
  s <- get ;;
  let answer := getProgram co s in
  modify (fun s =>
    set_program (Some (ea_program answer))
      (set_programObjects (ea_programObjects answer)
         (set_rootFiles (ea_rootFiles answer) s))) ;;
  s <- get ;;
  let hasChanges := hasChangesTest oldProgram (ea_program answer) s in
  let newProgram := programAt s (ea_program answer) in
  when hasChanges
    (match oldProgram with
     | Some old =>
       forEach (sourceFiles (programAt s old)) (fun f =>
         if bool_decide (is_Some (getSourceFileByPath newProgram (sf_path f)))
         then ret tt
         else
           s <- get ;;
           match getScriptInfo co s (sf_fileName f) with
           | Some scriptInfoToDetach =>
             emit (DetachFromProject (si_fileName scriptInfoToDetach))
           | None => ret tt
           end)
     | None => ret tt
     end ;;
     updateMissingFilePathsWatch newProgram) ;;
  s <- get ;;
  let oldExternalFiles := default [] (externalFiles s) in
  newExternalFiles <- getExternalFiles ;;
  modify (set_externalFiles (Some newExternalFiles)) ;;
  forEach (enumerateInsertsAndDeletes co newExternalFiles oldExternalFiles)
    (fun change =>
       s <- get ;;
       match change with
       | Inserted inserted =>
         emit (AttachToProject (si_fileName (getOrCreateScriptInfo co s inserted)))
       | Removed removed =>
         match getScriptInfo co s removed with
         | Some scriptInfoToDetach =>
           emit (DetachFromProject (si_fileName scriptInfoToDetach))
         | None => ret tt
         end
       end) ;;
  ret hasChanges.

(** [setTypings] (lines 664-671) *)
Definition Project_setTypings (typings : list JsString) : M bool :=
  s <- get ;;
  if arrayIsEqualTo (typingFiles s) (Some typings) then ret false
  else
    modify (set_typingFiles (Some typings)) ;;
    Project_markAsDirty ;;
    ret true.

(** The source files of the current program. *)
Definition currentSourceFiles (s : State) : list SourceFile :=
  match program s with
  | Some p => sourceFiles (programAt s p)
  | None => []
  end.

(** Lines 613-616 of [updateGraph]: start recording, first worker pass. *)
Definition updateGraph_firstPass : M bool :=
  emit StartRecordingFilesWithChangedResolutions ;;
  emit CreateHasInvalidatedResolution ;;
  Project_updateGraphWorker.

(** Lines 618-639 of [updateGraph]: drop the cached imports of the files
    whose resolutions changed, collect again when needed; the answer is
    the local [unresolvedImports]. *)
Definition updateGraph_unresolvedImports (hasChanges : bool)
    : M (option (list JsString)) :=
  emit FinishRecordingFilesWithChangedResolutions ;;
  s <- get ;;
  let changedFiles := default [] (finishRecordingFilesWithChangedResolutions co s) in
  forEach changedFiles (fun file =>
    modify (fun s =>
      set_cachedUnresolvedImportsPerFile
        (UnresolvedImportsMap.remove file (cachedUnresolvedImportsPerFile s)) s)) ;;
  when (hasChanges || truthy (Z.of_nat (length changedFiles)))
    (s <- get ;;
     result <- extractAll (currentSourceFiles s) [] ;;
     modify (set_lastCachedUnresolvedImportsList
               (Some (toDeduplicatedSortedArray co result)))) ;;
  s <- get ;;
  ret (lastCachedUnresolvedImportsList s).

(** Lines 613-641 of [updateGraph]: everything up to the answer of the
    typings cache. The answer is the pair of [hasChanges] and
    [cachedTypings]. *)
Definition updateGraph_toTypings : M (bool * list JsString) :=
  hasChanges <- updateGraph_firstPass ;;
  unresolvedImports <- updateGraph_unresolvedImports hasChanges ;;
  emit (GetTypingsForProject unresolvedImports hasChanges) ;;
  s <- get ;;
  ret (hasChanges, getTypingsForProject co s unresolvedImports hasChanges).

(** Lines 642-644 of [updateGraph]: store the typings, and run the worker
    again when they differ. The answer is the new [hasChanges]. *)
Definition updateGraph_secondPass (hasChanges : bool) (cachedTypings : list JsString)
    : M bool :=
  changed <- Project_setTypings cachedTypings ;;
  if changed then
    again <- Project_updateGraphWorker ;;
    ret (again || hasChanges)
  else ret hasChanges.

(** Lines 646-661 of [updateGraph]: builder, structure version, answer. *)
Definition updateGraph_finish (hasChanges : bool) : M bool :=
  s <- get ;;
  when (builder s)
    (if languageServiceEnabled s then emit BuilderOnProgramUpdateGraph
     else emit BuilderClear) ;;
  when hasChanges
    (modify (fun s => set_projectStructureVersion (projectStructureVersion s + 1) s)) ;;
  ret (negb hasChanges).

(** [Project.updateGraph] (lines 612-662) *)
Definition Project_updateGraph : M bool :=
  asked <- updateGraph_toTypings ;;
  hasChanges <- updateGraph_secondPass (fst asked) (snd asked) ;;
  updateGraph_finish hasChanges.

(** *** [ConfiguredProject.updateGraph] (lines 1027-1034) and the dispatch *)

Definition ConfiguredProject_updateGraph : M bool :=
  s <- get ;;
  if pendingReload s then
    modify (set_pendingReload false) ;;
    emit ReloadConfiguredProject ;;
    modify (reloadConfiguredProject co) ;;
    ret true
  else Project_updateGraph.

(** [this.updateGraph()]: the method of the project's class. *)
Definition updateGraph : M bool :=
  s <- get ;;
  match projectKind s with
  | Configured => ConfiguredProject_updateGraph
  | _ => Project_updateGraph
  end.

(** *** The delta report *)

(** [getRootFiles] (lines 413-415) *)
Definition Project_getRootFiles (s : State) : list JsString :=
  si_fileName <$> rootFiles s.

(** [getFileNames] (lines 466-501) *)
Definition Project_getFileNames (excludeFilesFromExternalLibraries excludeConfigFiles : bool)
    (s : State) : list JsString :=
  match program s with
  | None => []
  | Some p =>
    let prog := programAt s p in
    if negb (languageServiceEnabled s) then
      let rootFiles := Project_getRootFiles s in
      let defaultLibrary := getDefaultLibFilePath co (optionsAt s (compilerOptions s)) in
      if negb (bool_decide (defaultLibrary = [])) then rootFiles ++ [defaultLibrary]
      else rootFiles
    else
      let result :=
        sf_fileName <$>
          filter (fun f => negb (excludeFilesFromExternalLibraries
                                 && isSourceFileFromExternalLibrary prog f))
                 (sourceFiles prog) in
      if negb excludeConfigFiles then
        match options_configFile prog with
        | Some configFile =>
          (result ++ [cf_fileName configFile])
          ++ default [] (extendedSourceFiles configFile)
        | None => result
        end
      else result
  end.

(** [getGlobalProjectErrors]: the empty array (lines 258-260), and for a
    configured project the errors without a file (lines 1129-1131). *)
Definition getGlobalProjectErrors (s : State) : list Diagnostic :=
  match projectKind s with
  | Configured => filter (fun d => diag_file d = None) (projectErrors s)
  | _ => []
  end.

(** [getChangesSinceVersion] (lines 828-875) *)
Definition Project_getChangesSinceVersion (lastKnownVersion : option Z)
    : M ProjectFilesWithTSDiagnostics :=
  updateGraph ;;
  s <- get ;;
  let info :=
    {| info_projectName := projectName s;
       info_version := projectStructureVersion s;
       isInferred := bool_decide (projectKind s = Inferred);
       info_options := compilerOptions s;
       languageServiceDisabled := negb (languageServiceEnabled s) |} in
  let updatedFileNames := updatedFileNames s in
  modify (set_updatedFileNames None) ;;
  s <- get ;;
  match lastReportedFileNames s with
  | Some lastReportedFileNames =>
    if bool_decide (lastKnownVersion = Some (lastReportedVersion s)) then
      if (projectStructureVersion s =? lastReportedVersion s)
         && negb (bool_decide (is_Some updatedFileNames))
      then
        ret {| pf_info := info; pf_files := None; pf_changes := None;
               pf_projectErrors := getGlobalProjectErrors s |}
      else
        let currentFiles := arrayToSet (Project_getFileNames false false s) in
        let updated := default [] updatedFileNames in
        let added := filter (fun id => negb (setHas lastReportedFileNames id)) currentFiles in
        let removed := filter (fun id => negb (setHas currentFiles id)) lastReportedFileNames in
        modify (set_lastReportedFileNames (Some currentFiles)) ;;
        modify (fun s => set_lastReportedVersion (projectStructureVersion s) s) ;;
        s <- get ;;
        ret {| pf_info := info; pf_files := None;
               pf_changes := Some {| added := added; removed := removed; updated := updated |};
               pf_projectErrors := getGlobalProjectErrors s |}
    else
      let projectFileNames := Project_getFileNames false false s in
      modify (set_lastReportedFileNames (Some (arrayToSet projectFileNames))) ;;
      modify (fun s => set_lastReportedVersion (projectStructureVersion s) s) ;;
      s <- get ;;
      ret {| pf_info := info; pf_files := Some projectFileNames; pf_changes := None;
             pf_projectErrors := getGlobalProjectErrors s |}
  | None =>
    let projectFileNames := Project_getFileNames false false s in
    modify (set_lastReportedFileNames (Some (arrayToSet projectFileNames))) ;;
    modify (fun s => set_lastReportedVersion (projectStructureVersion s) s) ;;
    s <- get ;;
    ret {| pf_info := info; pf_files := Some projectFileNames; pf_changes := None;
           pf_projectErrors := getGlobalProjectErrors s |}
  end.

(** *** Compiler options *)

(** [setInternalCompilerOptionsForEmittingJsFiles] (lines 249-253) *)
Definition Project_setInternalCompilerOptionsForEmittingJsFiles : M unit :=
  s <- get ;;
  match projectKind s with
  | Inferred | External =>
    modify (updateOptionsAt (compilerOptions s) (set_noEmitForJsFiles (Some true)))
  | Configured => ret tt
  end.

(** [Project.setCompilerOptions] (lines 797-815) *)
Definition Project_setCompilerOptions (compilerOptions_ : option OptionsRef) : M unit :=
  match compilerOptions_ with
  | None => ret tt
  | Some newOptions =>
    modify (updateOptionsAt newOptions (set_allowNonTsExtensions (Some true))) ;;
    s <- get ;;
    when (changesAffectModuleResolution co
            (optionsAt s (compilerOptions s)) (optionsAt s newOptions))
      (modify (fun s =>
         set_cachedUnresolvedImportsPerFile
           (UnresolvedImportsMap.clear (cachedUnresolvedImportsPerFile s)) s) ;;
       modify (set_lastCachedUnresolvedImportsList None)) ;;
    s <- get ;;
    let oldOptions := compilerOptions s in
    modify (set_compilerOptions newOptions) ;;
    Project_setInternalCompilerOptionsForEmittingJsFiles ;;
    s <- get ;;
    when (changesAffectModuleResolution co
            (optionsAt s oldOptions) (optionsAt s newOptions))
      (emit ResolutionCacheClear) ;;
    modify (fun s => set_lsHost_compilationSettings (compilerOptions s) s) ;;
    Project_markAsDirty
  end.

(** Modelled from the spec: [cloneCompilerOptions] (services utilities)
    clones the incoming options: a new object with the same settings. *)
Definition cloneCompilerOptions (options : OptionsRef) : M OptionsRef :=
  s <- get ;;
  modify (set_optionsObjects (optionsObjects s ++ [optionsAt s options])) ;;
  ret (length (optionsObjects s)).

(** [InferredProject.setCompilerOptions] (lines 907-922). The project
    always holds options (the constructor sees to it), so the early
    return of line 911 is never taken. *)
Definition InferredProject_setCompilerOptions (options : option OptionsRef) : M unit :=
  newOptions <-
    match options with
    | Some o => cloneCompilerOptions o
    | None => s <- get ;; ret (compilerOptions s)
    end ;;
  s <- get ;;
  (if _isJsInferredProject s
      && negb (bool_decide (is_Some (maxNodeModuleJsDepth (optionsAt s newOptions))))
   then modify (updateOptionsAt newOptions (set_maxNodeModuleJsDepth (Some 2)))
   else if negb (_isJsInferredProject s)
   then modify (updateOptionsAt newOptions (set_maxNodeModuleJsDepth None))
   else ret tt) ;;
  modify (updateOptionsAt newOptions (set_allowJs (Some true))) ;;
  Project_setCompilerOptions (Some newOptions).

(** [this.setCompilerOptions(options)]: the method of the project's class. *)
Definition setCompilerOptions (options : option OptionsRef) : M unit :=
  s <- get ;;
  match projectKind s with
  | Inferred => InferredProject_setCompilerOptions options
  | _ => Project_setCompilerOptions options
  end.

(** [toggleJsInferredProject] (lines 900-905) *)
Definition InferredProject_toggleJsInferredProject (isJsInferredProject : bool) : M unit :=
  s <- get ;;
  if negb (Bool.eqb isJsInferredProject (_isJsInferredProject s)) then
    modify (set_isJsInferredProject isJsInferredProject) ;;
    setCompilerOptions None
  else ret tt.

(** *** Plugins of a configured project *)

(** [Project.resolveModule] (lines 180-190), with the host's [require]. *)
Definition Project_resolveModule (moduleName initialDir : JsString)
    (require : JsString -> JsString -> RequireResult)
    : M (option ResolvedPluginModule) :=
  let resolvedPath :=
    normalizeSlashes co
      (host_resolvePath co (combinePaths co initialDir (js "node_modules"))) in
  emit (LoggerInfo (LoadingModule moduleName initialDir resolvedPath)) ;;
  let result := require resolvedPath moduleName in
  match rr_error result with
  | Some err =>
    emit (LoggerInfo (FailedToLoadModule moduleName err)) ;;
    ret None
  | None => ret (rr_module result)
  end.

(** The [PluginCreateInfo] of lines 1105-1111. *)
Definition createInfo (configEntry : PluginImport) (s : State) : PluginCreateInfo :=
  {| info_config := configEntry;
     info_project := projectName s;
     info_languageService := languageService s;
     info_languageServiceHost := projectName s;
     info_serverHost := tt |}.

(** The [catch] block of [enableProxy] (lines 1117-1119). The template
    literal renders [e] before the logger is called: when the rendering
    throws, nothing is logged and what it throws leaves the method. *)
Definition enableProxy_catch (e : Thrown) : M (Thrown + unit) :=
  match Thrown_toString e with
  | inr rendered =>
    emit (LoggerInfo (PluginActivationFailed rendered)) ;;
    ret (inr tt)
  | inl escaping => ret (inl escaping)
  end.

(** [enableProxy] (lines 1098-1120). A throw of the factory or of
    [create] leaves the [try] block at once, for the [catch]. The answer
    tells how the call ends: [inr tt] when it returns, [inl e] when [e]
    is thrown to the caller. *)
Definition ConfiguredProject_enableProxy (pluginModuleFactory : ResolvedPluginModule)
    (configEntry : PluginImport) : M (Thrown + unit) :=
  match pluginModuleFactory with
  | NotAFunction =>
    emit (LoggerInfo (SkippedLoadingPlugin (pi_name configEntry))) ;;
    ret (inr tt)
  | Factory factory =>
    s <- get ;;
    let info := createInfo configEntry s in
    match factory tt with
    | inl e => enableProxy_catch e
    | inr pluginModule =>
      match create pluginModule info with
      | inl e => enableProxy_catch e
      | inr wrapped =>
        modify (set_languageService wrapped) ;;
        modify (fun s => set_plugins (plugins s ++ [pluginModule]) s) ;;
        ret (inr tt)
      end
    end
  end.

(** A [for ... of] loop whose body may throw: the first throw leaves the
    loop, and the method with it. *)
Fixpoint forEachThrowing {A} (l : list A) (body : A -> M (Thrown + unit))
    : M (Thrown + unit) :=
  match l with
  | [] => ret (inr tt)
  | a :: rest =>
    outcome <- body a ;;
    match outcome with
    | inl e => ret (inl e)
    | inr _ => forEachThrowing rest body
    end
  end.

(** [enablePlugin] (lines 1083-1096): the loop over the search paths. *)
Fixpoint enablePlugin_search (require : JsString -> JsString -> RequireResult)
    (pluginConfigEntry : PluginImport) (allPaths searchPaths : list JsString)
    : M (Thrown + unit) :=
  match searchPaths with
  | [] =>
    emit (LoggerInfo (CouldntFindPlugin (pi_name pluginConfigEntry) allPaths)) ;;
    ret (inr tt)
  | searchPath :: rest =>
    resolvedModule <- Project_resolveModule (pi_name pluginConfigEntry) searchPath require ;;
    match resolvedModule with
    | Some factory => ConfiguredProject_enableProxy factory pluginConfigEntry
    | None => enablePlugin_search require pluginConfigEntry allPaths rest
    end
  end.

Definition ConfiguredProject_enablePlugin (require : JsString -> JsString -> RequireResult)
    (pluginConfigEntry : PluginImport) (searchPaths : list JsString)
    : M (Thrown + unit) :=
  enablePlugin_search require pluginConfigEntry searchPaths searchPaths.

(** [enablePlugins] (lines 1045-1081) *)
Definition ConfiguredProject_enablePlugins : M (Thrown + unit) :=
  s <- get ;;
  let options := optionsAt s (compilerOptions s) in
  match host_require co with
  | None =>
    emit (LoggerInfo PluginsNeedRequire) ;;
    ret (inr tt)
  | Some require =>
    let searchPaths :=
      combinePaths co (getExecutingFilePath co) (js "../../..")
      :: pluginProbeLocations co in
    searchPaths <-
      (if allowLocalPluginLoads co then
         let local := getDirectoryPath co (canonicalConfigFilePath s) in
         emit (LoggerInfo (LocalPluginLoadingEnabled local)) ;;
         ret (local :: searchPaths)
       else ret searchPaths) ;;
    outcome <-
      match opt_plugins options with
      | Some entries =>
        forEachThrowing entries (fun pluginConfigEntry =>
          ConfiguredProject_enablePlugin require pluginConfigEntry searchPaths)
      | None => ret (inr tt)
      end ;;
    match outcome with
    | inl e => ret (inl e)
    | inr _ =>
      match globalPlugins co with
      | Some names =>
        forEachThrowing names (fun globalPluginName =>
          if match opt_plugins options with
             | Some entries =>
               existsb (fun p => bool_decide (pi_name p = globalPluginName)) entries
             | None => false
             end
          then ret (inr tt)
          else
            ConfiguredProject_enablePlugin require
              {| pi_name := globalPluginName; pi_global := true |} searchPaths)
      | None => ret (inr tt)
      end
    end
  end.

End Methods.

(** ** The spec's words, for comparison with the code *)

(** The part of a specifier before its ([keep]+1)-th '/', the whole of it
    when it has no such '/': the segment before the first '/' for [keep = 0],
    before the second for [keep = 1]. *)
Fixpoint prefixKeepingSlashes (keep : nat) (s : JsString) : JsString :=
  match s with
  | [] => []
  | c :: rest =>
    if (c =? JsString.slash)%N then
      match keep with
      | O => []
      | S k => c :: prefixKeepingSlashes k rest
      end
    else c :: prefixKeepingSlashes keep rest
  end.

(** Is the first character '@'? *)
Definition isScoped (s : JsString) : bool :=
  bool_decide (JsString.charCodeAt s 0 = Some CharacterCodes_at).

(** "trim whitespace and canonicalize the specifier to its package prefix" *)
Definition spec_packagePrefix (name : JsString) : JsString :=
  let trimmed := JsString.trim name in
  prefixKeepingSlashes (if isScoped trimmed then 1 else 0) trimmed.

(** "each entry where resolution failed and the specifier is not a relative
    path", canonicalized, in the order of the mapping. *)
Definition pickedNames (co : Collaborators)
    (entries : list (JsString * option ResolvedModuleFull)) : list JsString :=
  omap (fun entry : JsString * option ResolvedModuleFull =>
          match snd entry with
          | None =>
            if isExternalModuleNameRelative co (fst entry) then None
            else Some (spec_packagePrefix (fst entry))
          | Some _ => None
          end)
       entries.

Definition spec_unresolvedImports (co : Collaborators) (file : SourceFile) : list JsString :=
  pickedNames co (default [] (resolvedModules file)).

(** The specifiers of a file whose resolution failed and which are not
    relative paths, as they are written in the file. *)
Definition unresolvedSpecifiers (co : Collaborators) (file : SourceFile) : list JsString :=
  omap (fun entry : JsString * option ResolvedModuleFull =>
          match snd entry with
          | None =>
            if isExternalModuleNameRelative co (fst entry) then None
            else Some (fst entry)
          | Some _ => None
          end)
       (default [] (resolvedModules file)).

(** "change is detected exactly when there is no previous program, or the new
    program snapshot differs from the old one and the old program's
    structure-reuse flag is less than Completely" *)
Definition spec_hasChanges (oldProgram : option ProgramRef) (newProgram : ProgramRef)
    (flagOfOld : StructureIsReused) : bool :=
  match oldProgram with
  | None => true
  | Some old =>
    negb (Nat.eqb newProgram old)
    && (StructureIsReused_value flagOfOld <? StructureIsReused_value Completely)
  end.

(** The operations on the index, as a sequence. *)
Inductive IndexOp :=
| OpSet (path : Path) (value : list JsString)
| OpRemove (path : Path)
| OpClear.

Definition applyIndexOp (m : UnresolvedImportsMap.t) (op : IndexOp) : UnresolvedImportsMap.t :=
  match op with
  | OpSet path value => UnresolvedImportsMap.set path value m
  | OpRemove path => UnresolvedImportsMap.remove path m
  | OpClear => UnresolvedImportsMap.clear m
  end.

Definition isClear (op : IndexOp) : bool :=
  match op with OpClear => true | _ => false end.

(** The operations that follow the last clearing of a sequence (all of
    them when it clears nothing). *)
Fixpoint sinceLastClear (ops : list IndexOp) : list IndexOp :=
  match ops with
  | [] => []
  | op :: rest =>
    if existsb isClear rest then sinceLastClear rest
    else if isClear op then rest else op :: rest
  end.

(** Number of [GetProgram] calls in a trace: one per worker pass. *)
Fixpoint countGetProgram (t : list Event) : nat :=
  match t with
  | [] => 0
  | GetProgram :: rest => S (countGetProgram rest)
  | _ :: rest => countGetProgram rest
  end.

(** "Change is detected" between the state before a worker pass and the
    state after it: the programs the project holds before and after, and the
    flag the old program bears after. *)
Definition changeDetected (before after : State) : bool :=
  spec_hasChanges (program before) (default 0%nat (program after))
    (match program before with
     | Some old => structureIsReused (programAt after old)
     | None => Not
     end).

(** The outcome of the [try] block of [enableProxy]: what was thrown, or the
    plugin module and the service it made. *)
Definition activation (factory : unit -> Thrown + PluginModule) (info : PluginCreateInfo)
    : Thrown + (PluginModule * LanguageService) :=
  match factory tt with
  | inl e => inl e
  | inr pluginModule =>
    match create pluginModule info with
    | inl e => inl e
    | inr wrapped => inr (pluginModule, wrapped)
    end
  end.

(** ** Notions for the proofs *)

(** A method leaves an observation of the state as it was. *)
Definition preserves {A V} (f : State -> V) (m : M A) : Prop :=
  forall s, f (execM m s) = f s.

(** The worker passes so far. *)
Definition passes (s : State) : nat := countGetProgram (trace s).

(** The state a worker pass is in once the engine has answered. *)
Definition afterEngine (co : Collaborators) (s : State) : State :=
  let s1 := set_trace (trace s ++ [GetProgram]) s in
  let answer := getProgram co s1 in
  set_program (Some (ea_program answer))
    (set_programObjects (ea_programObjects answer)
       (set_rootFiles (ea_rootFiles answer) s1)).

(** The state in which the second worker pass starts, when there is one. *)
Definition typingsStored (typings : list JsString) (s : State) : State :=
  set_projectStateVersion (projectStateVersion (set_typingFiles (Some typings) s) + 1)
    (set_typingFiles (Some typings) s).

(** The states between the phases of [updateGraph]. *)
Definition afterFirstPass (co : Collaborators) (s : State) : State :=
  execM (updateGraph_firstPass co) s.

Definition afterToTypings (co : Collaborators) (s : State) : State :=
  execM (updateGraph_toTypings co) s.

(** A method touches the index by insertions and removals only. *)
Definition insertsAndRemovesOnly {A} (m : M A) : Prop :=
  forall s, exists ops,
    existsb isClear ops = false
    /\ cachedUnresolvedImportsPerFile (execM m s)
       = foldl applyIndexOp (cachedUnresolvedImportsPerFile s) ops.

(** What a call of [InferredProject.setCompilerOptions] does to the clone
    of the incoming options, up to the hand-over to the base class. *)
Definition inferredOverrides (isJs : bool) (o : CompilerOptions) : CompilerOptions :=
  set_allowJs (Some true)
    (if isJs && negb (bool_decide (is_Some (maxNodeModuleJsDepth o)))
     then set_maxNodeModuleJsDepth (Some 2) o
     else if negb isJs then set_maxNodeModuleJsDepth None o else o).

(** ** A concrete setting, for the examples *)

(** Modelled from the spec: [isExternalModuleNameRelative] (compiler core)
    tells whether a specifier is a relative path: its first term is "." or
    "..". *)
Definition demo_isExternalModuleNameRelative (name : JsString) : bool :=
  match name with
  | [46] | [46; 46] => true
  | 46 :: 47 :: _ | 46 :: 92 :: _ => true
  | 46 :: 46 :: 47 :: _ | 46 :: 46 :: 92 :: _ => true
  | _ => false
  end%N.

(** Modelled from the spec: [changesAffectModuleResolution] (compiler
    utilities) tells whether two sets of options differ in ways that affect
    module resolution; here, in [allowJs], in [maxNodeModuleJsDepth] or in the
    settings carried along. *)
Definition demo_changesAffectModuleResolution (oldOptions newOptions : CompilerOptions) : bool :=
  negb (bool_decide (allowJs oldOptions = allowJs newOptions))
  || negb (bool_decide (maxNodeModuleJsDepth oldOptions = maxNodeModuleJsDepth newOptions))
  || negb (bool_decide (otherSettings oldOptions = otherSettings newOptions)).

(** Order of strings by code units, and sorting without duplicates. *)
Fixpoint stringLt (a b : JsString) : bool :=
  match a, b with
  | _, [] => false
  | [], _ :: _ => true
  | x :: a', y :: b' => (x <? y)%N || ((x =? y)%N && stringLt a' b')
  end.

Fixpoint insertSorted (x : JsString) (l : list JsString) : list JsString :=
  match l with
  | [] => [x]
  | y :: rest =>
    if bool_decide (x = y) then l
    else if stringLt x y then x :: l
    else y :: insertSorted x rest
  end.

Definition demo_toDeduplicatedSortedArray (l : list JsString) : list JsString :=
  foldr insertSorted [] l.

Definition demo_enumerateInsertsAndDeletes (newItems oldItems : list JsString)
    : list InsertOrDelete :=
  (Inserted <$> filter (fun x => x ∉ oldItems) newItems)
  ++ (Removed <$> filter (fun x => x ∉ newItems) oldItems).

Definition demo_scriptInfo (fileName : JsString) : ScriptInfo :=
  {| si_fileName := fileName; si_path := fileName; si_scriptKind := SK_TS |}.

Definition demo_sourceFile (fileName : JsString) : SourceFile :=
  {| sf_fileName := fileName; sf_path := fileName; resolvedModules := None |}.

Definition withStructureIsReused (flag : StructureIsReused) (p : Program) : Program :=
  {| sourceFiles := sourceFiles p; missingFilePaths := missingFilePaths p;
     externalLibraryFiles := externalLibraryFiles p;
     options_configFile := options_configFile p; structureIsReused := flag |}.

(** A small engine: the program is made of the root files and the typing
    files; it is built anew, from the program before, whenever that list has
    changed, and the program before is then stamped as not reused. *)
Definition demo_getProgram (s : State) : EngineAnswer :=
  let wanted := (si_fileName <$> rootFiles s) ++ default [] (typingFiles s) in
  let fresh :=
    {| sourceFiles := demo_sourceFile <$> wanted; missingFilePaths := [];
       externalLibraryFiles := []; options_configFile := None;
       structureIsReused := Not |} in
  match program s with
  | Some current =>
    if bool_decide (sf_fileName <$> sourceFiles (programAt s current) = wanted)
    then {| ea_programObjects := programObjects s; ea_program := current;
            ea_rootFiles := rootFiles s |}
    else {| ea_programObjects :=
              alter (withStructureIsReused Not) current (programObjects s) ++ [fresh];
            ea_program := length (programObjects s);
            ea_rootFiles := rootFiles s |}
  | None =>
    {| ea_programObjects := programObjects s ++ [fresh];
       ea_program := length (programObjects s);
       ea_rootFiles := rootFiles s |}
  end.

(** Plugins: the first throws an Error from [create], the second wraps,
    the third throws a Symbol from [create]. *)
Definition demo_throwingPlugin : PluginModule :=
  {| create := fun _ => inl (ThrownError (js "Error") (js "boom"));
     pm_getExternalFiles := None |}.

Definition demo_symbolPlugin : PluginModule :=
  {| create := fun _ => inl ThrownSymbol; pm_getExternalFiles := None |}.

Definition demo_wrappingPlugin : PluginModule :=
  {| create := fun info =>
       match info_languageService info with
       | ServiceObject n => inr (ServiceObject (n + 100))
       end;
     pm_getExternalFiles := None |}.

Definition demo_require (resolvedPath moduleName : JsString) : RequireResult :=
  if bool_decide (moduleName = js "p1") then
    {| rr_module := Some (Factory (fun _ => inr demo_throwingPlugin)); rr_error := None |}
  else if bool_decide (moduleName = js "p2") then
    {| rr_module := Some (Factory (fun _ => inr demo_wrappingPlugin)); rr_error := None |}
  else if bool_decide (moduleName = js "p3") then
    {| rr_module := Some (Factory (fun _ => inr demo_symbolPlugin)); rr_error := None |}
  else {| rr_module := None; rr_error := Some (js "not found") |}.

Definition demo : Collaborators :=
  {| changesAffectModuleResolution := demo_changesAffectModuleResolution;
     isExternalModuleNameRelative := demo_isExternalModuleNameRelative;
     toDeduplicatedSortedArray := demo_toDeduplicatedSortedArray;
     toSortedArray := demo_toDeduplicatedSortedArray;
     enumerateInsertsAndDeletes := demo_enumerateInsertsAndDeletes;
     getDefaultLibFilePath := fun _ => js "lib.d.ts";
     combinePaths := fun a b => a ++ js "/" ++ b;
     normalizeSlashes := fun p => p;
     getDirectoryPath := fun p => p;
     getProgram := demo_getProgram;
     finishRecordingFilesWithChangedResolutions := fun _ => None;
     getScriptInfo := fun _ fileName => Some (demo_scriptInfo fileName);
     getOrCreateScriptInfo := fun _ fileName => demo_scriptInfo fileName;
     getTypingsForProject := fun _ _ _ => [];
     reloadConfiguredProject := fun s => s;
     host_require := Some demo_require;
     host_resolvePath := fun p => p;
     getExecutingFilePath := js "/ts/lib/tsserver.js";
     pluginProbeLocations := [];
     allowLocalPluginLoads := false;
     globalPlugins := None |}.

(** A project as the constructor (lines 192-234) leaves it when it is given
    no options and the language service is enabled: the default options
    with [allowNonTsExtensions] and [allowJs] set, [noEmitForJsFiles] set
    for the inferred and external kinds, and the state version bumped once. *)
Definition newProject (name : JsString) (kind : ProjectKind) : State :=
  {| projectName := name; projectKind := kind; rootFiles := []; program := None;
     externalFiles := None; missingFilesMap := None;
     cachedUnresolvedImportsPerFile := UnresolvedImportsMap.create;
     lastCachedUnresolvedImportsList := None;
     languageService := ServiceObject 0; languageServiceEnabled := true;
     lsHost_compilationSettings := 0%nat; builder := false;
     updatedFileNames := None; lastReportedFileNames := None;
     lastReportedVersion := 0; projectStructureVersion := 0; projectStateVersion := 1;
     typingFiles := None; compilerOptions := 0%nat;
     _isJsInferredProject := false;
     canonicalConfigFilePath := name; pendingReload := false; plugins := [];
     projectErrors := [];
     optionsObjects :=
       [ {| allowNonTsExtensions := Some true; allowJs := Some true;
            maxNodeModuleJsDepth := None;
            noEmitForJsFiles :=
              match kind with Configured => None | _ => Some true end;
            opt_plugins := None; otherSettings := [] |} ];
     programObjects := []; trace := [] |}.

(** [addRoot] of the base class (lines 538-545), for a root that is not
    one yet. *)
Definition Project_addRoot (info : ScriptInfo) : M unit :=
  modify (fun s => set_rootFiles (rootFiles s ++ [info]) s) ;;
  emit (AttachToProject (si_fileName info)) ;;
  Project_markAsDirty.

(** *** Example data *)

(** A caller allocates an options object; the answer is the state with the
    object in the store, at the index [length (optionsObjects s)]. *)
Definition withOptionsObject (o : CompilerOptions) (s : State) : State :=
  set_optionsObjects (optionsObjects s ++ [o]) s.

(** The file of the scoped-import scenario. *)
Definition example_scopedFile : SourceFile :=
  {| sf_fileName := js "a.ts"; sf_path := js "a.ts";
     resolvedModules := Some [(js "@scope/pkg/sub", None); (js "./rel", None)] |}.

(** A file importing a scoped package by its bare scope, and a scoped
    package written with a leading blank. *)
Definition example_slashFile : SourceFile :=
  {| sf_fileName := js "b.ts"; sf_path := js "b.ts";
     resolvedModules := Some [(js "@scope", None); (js " @a/b/c", None)] |}.

(** An inferred project with one root. *)
Definition example_inferred : State :=
  execM (Project_addRoot (demo_scriptInfo (js "a.ts"))) (newProject (js "p") Inferred).

(** An inferred project that has turned JS-flavored, and a caller's options
    that carry a depth of their own. *)
Definition example_jsInferred : State :=
  withOptionsObject (set_maxNodeModuleJsDepth (Some 5) emptyOptions)
    (execM (InferredProject_toggleJsInferredProject demo true)
       (newProject (js "p") Inferred)).

(** An external project whose index holds the imports of one file, and a
    caller's options that switch [allowJs] off. *)
Definition example_indexed : State :=
  withOptionsObject (set_allowJs (Some false) emptyOptions)
    (execM (Project_extractUnresolvedImportsFromSourceFile demo example_scopedFile [])
       (newProject (js "p") External)).

(** A configured project whose options list the two plugins. *)
Definition example_configured : State :=
  updateOptionsAt 0%nat
    (fun o =>
       {| allowNonTsExtensions := allowNonTsExtensions o; allowJs := allowJs o;
          maxNodeModuleJsDepth := maxNodeModuleJsDepth o;
          noEmitForJsFiles := noEmitForJsFiles o;
          opt_plugins := Some [ {| pi_name := js "p1"; pi_global := false |};
                                {| pi_name := js "p2"; pi_global := false |} ];
          otherSettings := otherSettings o |})
    (newProject (js "/tsconfig.json") Configured).

(** A configured project whose config file lists the plugin that throws a
    Symbol, then the plugin that wraps. *)
Definition example_symbolFirst : State :=
  updateOptionsAt 0%nat
    (fun o =>
       {| allowNonTsExtensions := allowNonTsExtensions o; allowJs := allowJs o;
          maxNodeModuleJsDepth := maxNodeModuleJsDepth o;
          noEmitForJsFiles := noEmitForJsFiles o;
          opt_plugins := Some [ {| pi_name := js "p3"; pi_global := false |};
                                {| pi_name := js "p2"; pi_global := false |} ];
          otherSettings := otherSettings o |})
    (newProject (js "/tsconfig.json") Configured).

(** * Properties *)

(** ** Strings *)

Lemma firstIndex_None c s : JsString.firstIndex c s = None <-> c ∉ s.
Proof.
  induction s as [|d s IH]; simpl.
  - split; [intros _; apply not_elem_of_nil | done].
  - destruct (N.eqb_spec d c) as [->|Hne].
    + split; [done | intros H; exfalso; apply H; left].
    + destruct (JsString.firstIndex c s) eqn:E; simpl.
      * split; [done|]. intros H. exfalso. apply H. right.
        destruct (decide (c ∈ s)) as [|Hn]; [done|]. apply IH in Hn. done.
      * split; [|done]. intros _ Hin. apply elem_of_cons in Hin as [->|Hin]; [done|].
        by apply IH in Hin.
Qed.

Lemma firstIndex_Some c s k :
  JsString.firstIndex c s = Some k ->
  s !! k = Some c /\ (c ∉ take k s) /\ (k < length s)%nat.
Proof.
  revert k. induction s as [|d s IH]; intros k; simpl; [done|].
  destruct (N.eqb_spec d c) as [->|Hne].
  - intros [= <-]. simpl. split; [done|]. split; [apply not_elem_of_nil | lia].
  - destruct (JsString.firstIndex c s) as [j|] eqn:E; simpl; [|done].
    intros [= <-]. destruct (IH j eq_refl) as (H1 & H2 & H3). simpl.
    split; [done|]. split; [|lia].
    intros Hin. apply elem_of_cons in Hin as [->|Hin]; done.
Qed.

Lemma indexOf_0 s c :
  JsString.indexOf s c 0 =
  match JsString.firstIndex c s with Some k => Z.of_nat k | None => -1 end.
Proof. unfold JsString.indexOf. simpl. rewrite drop_0. by destruct (JsString.firstIndex c s). Qed.

Lemma indexOf_after s c (k : nat) :
  JsString.indexOf s c (Z.of_nat k + 1) =
  match JsString.firstIndex c (drop (S k) s) with
  | Some j => Z.of_nat (S k + j)
  | None => -1
  end.
Proof.
  unfold JsString.indexOf.
  replace (Z.to_nat (Z.max 0 (Z.of_nat k + 1))) with (S k) by lia. done.
Qed.

Lemma substr_prefix s (n : nat) :
  (n <= length s)%nat -> JsString.substr s 0 (Z.of_nat n) = take n s.
Proof.
  intros Hn. unfold JsString.substr. simpl.
  replace (Z.min 0 (Z.of_nat (length s))) with 0 by lia.
  simpl. rewrite drop_0. f_equal. lia.
Qed.

Lemma prefixKeepingSlashes_no_slash keep s :
  JsString.firstIndex JsString.slash s = None -> prefixKeepingSlashes keep s = s.
Proof.
  induction s as [|c s IH]; simpl; [done|].
  destruct (c =? JsString.slash)%N; [done|].
  destruct (JsString.firstIndex JsString.slash s); simpl; [done|].
  intros _. by rewrite IH.
Qed.

Lemma prefixKeepingSlashes_0 s k :
  JsString.firstIndex JsString.slash s = Some k -> prefixKeepingSlashes 0 s = take k s.
Proof.
  revert k. induction s as [|c s IH]; intros k; simpl; [done|].
  destruct (c =? JsString.slash)%N.
  - by intros [= <-].
  - destruct (JsString.firstIndex JsString.slash s) as [j|]; simpl; [|done].
    intros [= <-]. simpl. by rewrite (IH j).
Qed.

Lemma prefixKeepingSlashes_S n s k :
  JsString.firstIndex JsString.slash s = Some k ->
  prefixKeepingSlashes (S n) s = take (S k) s ++ prefixKeepingSlashes n (drop (S k) s).
Proof.
  revert k. induction s as [|c s IH]; intros k; simpl; [done|].
  destruct (c =? JsString.slash)%N.
  - intros [= <-]. simpl. by rewrite drop_0.
  - destruct (JsString.firstIndex JsString.slash s) as [j|]; simpl; [|done].
    intros [= <-]. simpl. by rewrite (IH j).
Qed.

Lemma take_plus_drop {A} (l : list A) a b :
  take (a + b) l = take a l ++ take b (drop a l).
Proof.
  revert l. induction a as [|a IH]; intros l; simpl.
  - by rewrite drop_0.
  - destruct l; simpl; [by rewrite take_nil|]. by rewrite IH.
Qed.

(** The name the code records is the package prefix of the spec. *)
Lemma unresolvedImportName_spec name :
  unresolvedImportName name = spec_packagePrefix name.
Proof.
  unfold unresolvedImportName, spec_packagePrefix, isScoped.
  set (t := JsString.trim name). rewrite indexOf_0.
  destruct (JsString.firstIndex JsString.slash t) as [k|] eqn:E1.
  - replace (Z.of_nat k =? -1) with false by (symmetry; apply Z.eqb_neq; lia).
    simpl negb. rewrite andb_true_l.
    destruct (firstIndex_Some _ _ _ E1) as (_ & _ & Hk).
    case_bool_decide as Hat.
    + rewrite indexOf_after.
      destruct (JsString.firstIndex JsString.slash (drop (S k) t)) as [j|] eqn:E2.
      * replace (Z.of_nat (S k + j) =? -1) with false by (symmetry; apply Z.eqb_neq; lia).
        simpl negb. cbv iota.
        destruct (firstIndex_Some _ _ _ E2) as (_ & _ & Hj). rewrite length_drop in Hj.
        rewrite substr_prefix by lia.
        rewrite (prefixKeepingSlashes_S _ _ _ E1), (prefixKeepingSlashes_0 _ _ E2).
        apply take_plus_drop.
      * simpl. rewrite (prefixKeepingSlashes_S _ _ _ E1).
        rewrite (prefixKeepingSlashes_no_slash _ _ E2). by rewrite take_drop.
    + replace (Z.of_nat k =? -1) with false by (symmetry; apply Z.eqb_neq; lia).
      simpl negb. cbv iota. rewrite substr_prefix by lia.
      by rewrite (prefixKeepingSlashes_0 _ _ E1).
  - simpl. by rewrite prefixKeepingSlashes_no_slash.
Qed.

Lemma countSlashes_cons c s :
  JsString.countSlashes (c :: s) =
  ((if (c =? JsString.slash)%N then 1 else 0) + JsString.countSlashes s)%nat.
Proof.
  unfold JsString.countSlashes. rewrite filter_cons.
  destruct (N.eqb_spec c JsString.slash) as [->|Hne].
  - by rewrite decide_True.
  - by rewrite decide_False.
Qed.

Lemma countSlashes_prefix keep s :
  JsString.countSlashes (prefixKeepingSlashes keep s) = Nat.min keep (JsString.countSlashes s).
Proof.
  revert keep. induction s as [|c s IH]; intros keep; simpl.
  - by rewrite Nat.min_0_r.
  - rewrite countSlashes_cons. destruct (N.eqb_spec c JsString.slash) as [->|Hne].
    + destruct keep as [|k]; [done|]. rewrite countSlashes_cons, IH. simpl. done.
    + rewrite countSlashes_cons. destruct (N.eqb_spec c JsString.slash); [done|].
      rewrite IH. done.
Qed.

(** ** Extraction of unresolved imports *)


Lemma foldl_pickUnresolved co entries u r :
  foldl (pickUnresolved co) (u, r) entries =
  (match pickedNames co entries with
   | [] => u
   | picked => Some (default [] u ++ picked)
   end, r ++ pickedNames co entries).
Proof.
  revert u r. induction entries as [|[name rm] entries IH]; intros u r; simpl.
  - by rewrite app_nil_r.
  - destruct rm as [m|]; simpl.
    + apply IH.
    + destruct (isExternalModuleNameRelative co name); simpl; [apply IH|].
      rewrite IH, unresolvedImportName_spec. simpl.
      rewrite <- !app_assoc. simpl.
      destruct (pickedNames co entries); simpl; [done|].
      by rewrite <- app_assoc.
Qed.

Lemma extract_run co file result s :
  Project_extractUnresolvedImportsFromSourceFile co file result s =
  match UnresolvedImportsMap.get (sf_path file) (cachedUnresolvedImportsPerFile s) with
  | Some cached => (result ++ cached, s)
  | None =>
    (result ++ spec_unresolvedImports co file,
     set_cachedUnresolvedImportsPerFile
       (UnresolvedImportsMap.set (sf_path file) (spec_unresolvedImports co file)
          (cachedUnresolvedImportsPerFile s)) s)
  end.
Proof.
  unfold Project_extractUnresolvedImportsFromSourceFile, bind, get. simpl.
  destruct (UnresolvedImportsMap.get _ _) as [cached|]; [done|].
  unfold spec_unresolvedImports.
  destruct (resolvedModules file) as [entries|]; simpl.
  - rewrite foldl_pickUnresolved. unfold modify, ret. simpl.
    destruct (pickedNames co entries); done.
  - unfold modify, ret. simpl. by rewrite app_nil_r.
Qed.

(** C3. For every source file, the extraction of unresolved imports consults
    the per-file cache first. On a miss it collects exactly the specifiers of
    the file's [resolvedModules] whose resolution failed and which are not
    relative paths, in the order of the mapping, each trimmed and cut to its
    package prefix (before the first '/' for a bare name, before the second
    for a name whose first character is '@'), appends them to the sink and
    stores the list, which may be empty, under the file's path. On a hit it
    appends the cached list. Either way the list is cached afterwards, and a
    later extraction for the same file appends that list again and leaves the
    state as it is. *)
Theorem extract_collects_and_caches co file result s :
  let cached := UnresolvedImportsMap.get (sf_path file) (cachedUnresolvedImportsPerFile s) in
  let expected := default (spec_unresolvedImports co file) cached in
  let s1 := execM (Project_extractUnresolvedImportsFromSourceFile co file result) s in
  evalM (Project_extractUnresolvedImportsFromSourceFile co file result) s = result ++ expected
  /\ UnresolvedImportsMap.get (sf_path file) (cachedUnresolvedImportsPerFile s1) = Some expected
  /\ forall later,
       Project_extractUnresolvedImportsFromSourceFile co file later s1 = (later ++ expected, s1).
Proof.
  intros cached expected s1. subst s1. unfold evalM, execM.
  rewrite extract_run. subst expected cached.
  destruct (UnresolvedImportsMap.get _ _) as [cached|] eqn:E; simpl.
  - split; [done|]. split; [done|]. intros later. by rewrite extract_run, E.
  - assert (Hget : UnresolvedImportsMap.get (sf_path file)
        (UnresolvedImportsMap.set (sf_path file) (spec_unresolvedImports co file)
          (cachedUnresolvedImportsPerFile s)) = Some (spec_unresolvedImports co file)).
    { unfold UnresolvedImportsMap.get, UnresolvedImportsMap.set. simpl.
      apply lookup_insert_eq. }
    split; [done|]. split; [done|]. intros later. rewrite extract_run. simpl.
    by rewrite Hget.
Qed.

(** ** Reasoning about the methods *)

Lemma evalM_bind {A B} (m : M A) (k : A -> M B) s :
  evalM (bind m k) s = evalM (k (evalM m s)) (execM m s).
Proof. unfold evalM, execM, bind. by destruct (m s). Qed.

Lemma execM_bind {A B} (m : M A) (k : A -> M B) s :
  execM (bind m k) s = execM (k (evalM m s)) (execM m s).
Proof. unfold evalM, execM, bind. by destruct (m s). Qed.


Lemma preserves_ret {A V} (f : State -> V) (a : A) : preserves f (ret a).
Proof. by intros s. Qed.

Lemma preserves_get {V} (f : State -> V) : preserves f get.
Proof. by intros s. Qed.

Lemma preserves_bind {A B V} (f : State -> V) (m : M A) (k : A -> M B) :
  preserves f m -> (forall a, preserves f (k a)) -> preserves f (bind m k).
Proof. intros Hm Hk s. rewrite execM_bind, Hk. apply Hm. Qed.

Lemma preserves_modify {V} (f : State -> V) (g : State -> State) :
  (forall s, f (g s) = f s) -> preserves f (modify g).
Proof. intros H s. apply H. Qed.

Lemma preserves_when {V} (f : State -> V) (b : bool) (m : M unit) :
  preserves f m -> preserves f (when b m).
Proof. intros H. destruct b; [done | apply preserves_ret]. Qed.

Lemma preserves_forEach {A V} (f : State -> V) (l : list A) (body : A -> M unit) :
  (forall x, preserves f (body x)) -> preserves f (forEach l body).
Proof.
  intros H. induction l as [|x l IH]; simpl; [apply preserves_ret|].
  apply preserves_bind; [apply H | intros _; apply IH].
Qed.

Lemma countGetProgram_app t1 t2 :
  countGetProgram (t1 ++ t2) = (countGetProgram t1 + countGetProgram t2)%nat.
Proof.
  induction t1 as [|e t1 IH]; simpl; [done|]. destruct e; simpl; rewrite IH; lia.
Qed.


Lemma preserves_emit_passes (e : Event) :
  countGetProgram [e] = 0%nat -> preserves passes (emit e).
Proof.
  intros H s. unfold passes, emit, modify, execM. simpl.
  rewrite countGetProgram_app, H. lia.
Qed.

Ltac preserves_step :=
  lazymatch goal with
  | |- preserves _ (bind _ _) => apply preserves_bind; [| intros ?]
  | |- preserves _ (ret _) => apply preserves_ret
  | |- preserves _ get => apply preserves_get
  | |- preserves _ (forEach _ _) => apply preserves_forEach; intros ?
  | |- preserves _ (when _ _) => apply preserves_when
  | |- preserves passes (emit _) => apply preserves_emit_passes; reflexivity
  | |- preserves _ (emit _) => apply preserves_modify; intros ?; reflexivity
  | |- preserves _ (modify _) => apply preserves_modify; intros ?; reflexivity
  | |- preserves _ (match ?x with _ => _ end) => destruct x
  | |- preserves _ (let _ := _ in _) => cbv zeta
  end.

Ltac preserves_auto := repeat preserves_step.


Lemma execM_bind_preserved {A B V} (f : State -> V) (m : M A) (k : A -> M B) s :
  (forall a, preserves f (k a)) -> f (execM (bind m k) s) = f (execM m s).
Proof. intros Hk. rewrite execM_bind. apply Hk. Qed.

Section Frames.
Context (co : Collaborators).

Lemma pluginExternalFiles_preserves {V} (f : State -> V) ps acc :
  (forall s t, f (set_trace t s) = f s) -> preserves f (pluginExternalFiles ps acc).
Proof.
  intros Ht. revert acc. induction ps as [|p ps IH]; intros acc; simpl.
  - apply preserves_ret.
  - destruct (pm_getExternalFiles p) as [g|]; [|apply IH].
    apply preserves_bind; [apply preserves_get|]. intros s.
    destruct (g (projectName s)); [|apply IH].
    apply preserves_bind; [|intros _; apply IH].
    apply preserves_modify. intros ?. apply Ht.
Qed.

Lemma pluginExternalFiles_passes ps acc : preserves passes (pluginExternalFiles ps acc).
Proof.
  revert acc. induction ps as [|p ps IH]; intros acc; simpl.
  - apply preserves_ret.
  - destruct (pm_getExternalFiles p) as [g|]; [|apply IH].
    apply preserves_bind; [apply preserves_get|]. intros s.
    destruct (g (projectName s)); [|apply IH].
    apply preserves_bind; [|intros _; apply IH].
    by apply preserves_emit_passes.
Qed.

Lemma getExternalFiles_passes : preserves passes (getExternalFiles co).
Proof.
  unfold getExternalFiles, ConfiguredProject_getExternalFiles.
  preserves_auto. apply pluginExternalFiles_passes.
Qed.

Lemma getExternalFiles_preserves {V} (f : State -> V) :
  (forall s t, f (set_trace t s) = f s) -> preserves f (getExternalFiles co).
Proof.
  intros Ht. unfold getExternalFiles, ConfiguredProject_getExternalFiles.
  preserves_auto. by apply pluginExternalFiles_preserves.
Qed.

(** The part of a worker pass that follows the engine's answer. *)
Lemma worker_passes s :
  passes (execM (Project_updateGraphWorker co) s) = S (passes s).
Proof.
  unfold Project_updateGraphWorker.
  rewrite execM_bind. rewrite execM_bind_preserved.
  - unfold passes, emit, modify, execM, get. simpl. rewrite countGetProgram_app. simpl. lia.
  - intros _. unfold updateMissingFilePathsWatch. preserves_auto.
    apply getExternalFiles_passes.
Qed.

Lemma worker_preserves_structureVersion :
  preserves projectStructureVersion (Project_updateGraphWorker co).
Proof.
  unfold Project_updateGraphWorker, updateMissingFilePathsWatch. preserves_auto.
  by apply getExternalFiles_preserves.
Qed.

Lemma worker_preserves_typingFiles :
  preserves typingFiles (Project_updateGraphWorker co).
Proof.
  unfold Project_updateGraphWorker, updateMissingFilePathsWatch. preserves_auto.
  by apply getExternalFiles_preserves.
Qed.

End Frames.


Lemma hasChangesTest_spec oldProgram newProgram s :
  hasChangesTest oldProgram newProgram s =
  spec_hasChanges oldProgram newProgram
    (match oldProgram with
     | Some old => structureIsReused (programAt s old)
     | None => Not
     end).
Proof.
  unfold hasChangesTest, spec_hasChanges. destruct oldProgram as [old|]; [|done].
  by destruct (structureIsReused (programAt s old)).
Qed.


Section Worker.
Context (co : Collaborators).

Lemma worker_eval s :
  evalM (Project_updateGraphWorker co) s =
  hasChangesTest (program s) (ea_program (getProgram co (set_trace (trace s ++ [GetProgram]) s)))
    (afterEngine co s).
Proof.
  unfold Project_updateGraphWorker.
  rewrite evalM_bind. change (evalM get s) with s. change (execM get s) with s. cbv beta zeta.
  rewrite evalM_bind. rewrite evalM_bind. rewrite evalM_bind. rewrite evalM_bind.
  cbv beta zeta.
  match goal with |- evalM (bind _ _) ?st = _ => set (sM := st) end.
  assert (HsM : sM = afterEngine co s) by reflexivity.
  rewrite evalM_bind.
  repeat (rewrite evalM_bind; cbv beta zeta).
  unfold ret, evalM at 1. simpl. rewrite <- HsM. reflexivity.
Qed.

Lemma worker_preserved {V} (f : State -> V) s :
  (forall s t, f (set_trace t s) = f s) ->
  (forall s v, f (set_missingFilesMap v s) = f s) ->
  (forall s v, f (set_externalFiles v s) = f s) ->
  f (execM (Project_updateGraphWorker co) s) = f (afterEngine co s).
Proof.
  intros Ht Hm He. unfold Project_updateGraphWorker.
  rewrite execM_bind. change (evalM get s) with s. change (execM get s) with s. cbv beta zeta.
  rewrite execM_bind, execM_bind, execM_bind. cbv beta zeta.
  rewrite execM_bind_preserved; [reflexivity|].
  intros s'. unfold updateMissingFilePathsWatch.
  repeat first
    [ apply getExternalFiles_preserves; assumption
    | preserves_step
    | (apply preserves_modify; intros ?; first [apply Ht | apply Hm | apply He]) ].
Qed.
End Worker.


Lemma changeDetected_ext b1 a1 b2 a2 :
  program b1 = program b2 -> program a1 = program a2 ->
  programObjects a1 = programObjects a2 ->
  changeDetected b1 a1 = changeDetected b2 a2.
Proof.
  intros Hb Ha Ho. unfold changeDetected, programAt. by rewrite Hb, Ha, Ho.
Qed.

Section Graph.
Context (co : Collaborators).

Lemma worker_detects s :
  evalM (Project_updateGraphWorker co) s
  = changeDetected s (execM (Project_updateGraphWorker co) s).
Proof.
  rewrite worker_eval, hasChangesTest_spec. unfold changeDetected.
  rewrite (worker_preserved co program) by done.
  assert (Hobj : programObjects (execM (Project_updateGraphWorker co) s)
                 = programObjects (afterEngine co s))
    by (by apply (worker_preserved co programObjects)).
  unfold programAt. rewrite Hobj. reflexivity.
Qed.

Lemma extract_preserves {V} (f : State -> V) file result :
  (forall s v, f (set_cachedUnresolvedImportsPerFile v s) = f s) ->
  preserves f (Project_extractUnresolvedImportsFromSourceFile co file result).
Proof.
  intros Hc. unfold Project_extractUnresolvedImportsFromSourceFile.
  apply preserves_bind; [apply preserves_get|]. intros s.
  destruct (UnresolvedImportsMap.get _ _); [apply preserves_ret|].
  destruct (match resolvedModules file with Some _ => _ | None => _ end).
  apply preserves_bind; [|intros ?; apply preserves_ret].
  apply preserves_modify. intros ?. apply Hc.
Qed.

Lemma extractAll_preserves {V} (f : State -> V) files result :
  (forall s v, f (set_cachedUnresolvedImportsPerFile v s) = f s) ->
  preserves f (extractAll co files result).
Proof.
  intros Hc. revert result. induction files as [|x files IH]; intros result; simpl.
  - apply preserves_ret.
  - apply preserves_bind; [by apply extract_preserves | intros ?; apply IH].
Qed.

Lemma unresolvedImports_preserves {V} (f : State -> V) h :
  (forall s t, f (set_trace t s) = f s) ->
  (forall s v, f (set_cachedUnresolvedImportsPerFile v s) = f s) ->
  (forall s v, f (set_lastCachedUnresolvedImportsList v s) = f s) ->
  preserves f (updateGraph_unresolvedImports co h).
Proof.
  intros Ht Hc Hl. unfold updateGraph_unresolvedImports.
  repeat first
    [ apply extractAll_preserves; assumption
    | preserves_step
    | (apply preserves_modify; intros ?; first [apply Ht | apply Hc | apply Hl]) ].
Qed.

Lemma unresolvedImports_passes h : preserves passes (updateGraph_unresolvedImports co h).
Proof.
  unfold updateGraph_unresolvedImports.
  repeat first [ apply extractAll_preserves; reflexivity | preserves_step ].
Qed.


Lemma firstPass_detects s :
  evalM (updateGraph_firstPass co) s = changeDetected s (afterFirstPass co s).
Proof.
  unfold afterFirstPass, updateGraph_firstPass.
  rewrite !evalM_bind, !execM_bind. rewrite worker_detects.
  by apply changeDetected_ext.
Qed.

Lemma worker_frame {V} (f : State -> V) :
  (forall s t, f (set_trace t s) = f s) ->
  (forall s v, f (set_missingFilesMap v s) = f s) ->
  (forall s v, f (set_externalFiles v s) = f s) ->
  (forall s v, f (set_program v s) = f s) ->
  (forall s v, f (set_programObjects v s) = f s) ->
  (forall s v, f (set_rootFiles v s) = f s) ->
  preserves f (Project_updateGraphWorker co).
Proof.
  intros Ht Hm He Hp Ho Hr s. rewrite worker_preserved by assumption.
  unfold afterEngine. cbv zeta. by rewrite Hp, Ho, Hr, Ht.
Qed.

Lemma firstPass_frame {V} (f : State -> V) :
  (forall s t, f (set_trace t s) = f s) ->
  (forall s v, f (set_missingFilesMap v s) = f s) ->
  (forall s v, f (set_externalFiles v s) = f s) ->
  (forall s v, f (set_program v s) = f s) ->
  (forall s v, f (set_programObjects v s) = f s) ->
  (forall s v, f (set_rootFiles v s) = f s) ->
  preserves f (updateGraph_firstPass co).
Proof.
  intros Ht Hm He Hp Ho Hr. unfold updateGraph_firstPass.
  apply preserves_bind; [|intros _; apply preserves_bind; [|intros _]].
  - apply preserves_modify. intros ?. apply Ht.
  - apply preserves_modify. intros ?. apply Ht.
  - by apply worker_frame.
Qed.

Lemma firstPass_passes s : passes (afterFirstPass co s) = S (passes s).
Proof.
  unfold afterFirstPass, updateGraph_firstPass.
  rewrite !execM_bind, worker_passes. f_equal.
  unfold passes, emit, modify, execM. simpl. rewrite !countGetProgram_app. simpl. lia.
Qed.

Lemma toTypings_eval s :
  fst (evalM (updateGraph_toTypings co) s) = evalM (updateGraph_firstPass co) s.
Proof.
  unfold updateGraph_toTypings. rewrite !evalM_bind. reflexivity.
Qed.

Lemma toTypings_preserved {V} (f : State -> V) s :
  (forall s t, f (set_trace t s) = f s) ->
  (forall s v, f (set_cachedUnresolvedImportsPerFile v s) = f s) ->
  (forall s v, f (set_lastCachedUnresolvedImportsList v s) = f s) ->
  f (afterToTypings co s) = f (afterFirstPass co s).
Proof.
  intros Ht Hc Hl. unfold afterToTypings, afterFirstPass, updateGraph_toTypings.
  rewrite execM_bind. rewrite execM_bind_preserved.
  - by apply unresolvedImports_preserves.
  - intros u. apply preserves_bind; [|intros _; preserves_auto].
    apply preserves_modify. intros ?. apply Ht.
Qed.

Lemma toTypings_passes s : passes (afterToTypings co s) = S (passes s).
Proof.
  rewrite <- firstPass_passes.
  unfold afterToTypings, afterFirstPass, updateGraph_toTypings.
  rewrite execM_bind. rewrite execM_bind_preserved.
  - apply unresolvedImports_passes.
  - intros u. preserves_auto.
Qed.

End Graph.

Lemma arrayIsEqualTo_spec a b : arrayIsEqualTo a b = true <-> a = b.
Proof.
  destruct a as [x|], b as [y|]; simpl; try (split; [done | done]).
  revert y. induction x as [|c x IH]; intros [|d y]; simpl; try (split; done).
  rewrite andb_true_iff, bool_decide_eq_true, IH. split.
  - by intros [-> [= ->]].
  - intros [= -> ->]. done.
Qed.

Section GraphTheorems.
Context (co : Collaborators).


Lemma setTypings_run typings s :
  Project_setTypings typings s =
  if arrayIsEqualTo (typingFiles s) (Some typings) then (false, s)
  else (true, typingsStored typings s).
Proof.
  unfold Project_setTypings, bind, get. simpl.
  by destruct (arrayIsEqualTo (typingFiles s) (Some typings)).
Qed.

Lemma secondPass_run h1 typings s :
  updateGraph_secondPass co h1 typings s =
  if arrayIsEqualTo (typingFiles s) (Some typings) then (h1, s)
  else
    let (again, s') := Project_updateGraphWorker co (typingsStored typings s) in
    (again || h1, s').
Proof.
  unfold updateGraph_secondPass, bind. rewrite setTypings_run.
  destruct (arrayIsEqualTo (typingFiles s) (Some typings)); [done|].
  by destruct (Project_updateGraphWorker co (typingsStored typings s)).
Qed.

Lemma updateGraph_run s :
  let sT := afterToTypings co s in
  let h1 := evalM (updateGraph_firstPass co) s in
  let typings := snd (evalM (updateGraph_toTypings co) s) in
  let changed := negb (arrayIsEqualTo (typingFiles s) (Some typings)) in
  let sD := typingsStored typings sT in
  let h := if changed then evalM (Project_updateGraphWorker co) sD || h1 else h1 in
  let s3 := if changed then execM (Project_updateGraphWorker co) sD else sT in
  evalM (Project_updateGraph co) s = negb h
  /\ execM (Project_updateGraph co) s = execM (updateGraph_finish h) s3.
Proof.
  intros sT h1 typings changed sD h s3.
  assert (Htf : typingFiles sT = typingFiles s).
  { unfold sT. rewrite (toTypings_preserved co typingFiles) by done.
    by apply (firstPass_frame co typingFiles). }
  unfold Project_updateGraph.
  rewrite evalM_bind, execM_bind. fold (afterToTypings co s). fold sT.
  rewrite toTypings_eval. fold h1. fold typings.
  assert (Hsecond : evalM (updateGraph_secondPass co h1 typings) sT = h
                    /\ execM (updateGraph_secondPass co h1 typings) sT = s3).
  { unfold evalM at 1, execM at 1. rewrite secondPass_run, Htf. subst h s3 changed.
    destruct (arrayIsEqualTo (typingFiles s) (Some typings)); simpl; [done|].
    unfold evalM, execM. subst sD.
    by destruct (Project_updateGraphWorker co (typingsStored typings sT)). }
  destruct Hsecond as [He Hx].
  rewrite evalM_bind, execM_bind. rewrite He, Hx. split; [|done].
  unfold updateGraph_finish. rewrite !evalM_bind. reflexivity.
Qed.

Lemma finish_structureVersion h s :
  projectStructureVersion (execM (updateGraph_finish h) s)
  = projectStructureVersion s + (if h then 1 else 0).
Proof.
  unfold updateGraph_finish. rewrite !execM_bind.
  change (evalM get s) with s. change (execM get s) with s. cbv beta.
  set (s1 := execM (when (builder s) _) s).
  assert (H1 : projectStructureVersion s1 = projectStructureVersion s).
  { subst s1. destruct (builder s); [|done]. simpl.
    by destruct (languageServiceEnabled s). }
  destruct h; simpl; unfold execM; simpl; lia.
Qed.

Lemma finish_preserved {V} (f : State -> V) h s :
  (forall s t, f (set_trace t s) = f s) ->
  (forall s v, f (set_projectStructureVersion v s) = f s) ->
  f (execM (updateGraph_finish h) s) = f s.
Proof.
  intros Ht Hv. revert s. change (preserves f (updateGraph_finish h)).
  unfold updateGraph_finish.
  repeat first
    [ preserves_step
    | (apply preserves_modify; intros ?; first [apply Ht | apply Hv]) ].
Qed.

Lemma finish_passes h : preserves passes (updateGraph_finish h).
Proof. unfold updateGraph_finish. preserves_auto. Qed.

(** What line 641 gives to [setTypings]: the answer of the typings cache,
    asked in the state the first pass and the collection of the unresolved
    imports leave, with the imports collected and the [hasChanges] of the
    first pass. *)
Lemma toTypings_answer s :
  let hasChanges := evalM (updateGraph_firstPass co) s in
  let s1 := execM (updateGraph_firstPass co) s in
  let unresolvedImports := evalM (updateGraph_unresolvedImports co hasChanges) s1 in
  let s2 := execM (updateGraph_unresolvedImports co hasChanges) s1 in
  let asked :=
    set_trace (trace s2 ++ [GetTypingsForProject unresolvedImports hasChanges]) s2 in
  evalM (updateGraph_toTypings co) s
  = (hasChanges, getTypingsForProject co asked unresolvedImports hasChanges).
Proof.
  cbv zeta. unfold updateGraph_toTypings, evalM, execM, bind.
  destruct (updateGraph_firstPass co s) as [hasChanges s1]. simpl.
  destruct (updateGraph_unresolvedImports co hasChanges s1) as [unresolvedImports s2].
  reflexivity.
Qed.

(** The worker passes of one call, by the list given to [setTypings]. *)
Lemma updateGraph_pass_count s :
  let typings := snd (evalM (updateGraph_toTypings co) s) in
  let rerun := negb (arrayIsEqualTo (typingFiles s) (Some typings)) in
  countGetProgram (trace (execM (Project_updateGraph co) s))
  = (countGetProgram (trace s) + (if rerun then 2 else 1))%nat.
Proof.
  intros typings rerun.
  destruct (updateGraph_run s) as [_ Hx]. cbv zeta in Hx. rewrite Hx.
  fold typings. fold rerun.
  change (passes (execM (updateGraph_finish
            (if rerun then evalM (Project_updateGraphWorker co)
                 (typingsStored typings (afterToTypings co s))
               || evalM (updateGraph_firstPass co) s
             else evalM (updateGraph_firstPass co) s))
            (if rerun then execM (Project_updateGraphWorker co)
                 (typingsStored typings (afterToTypings co s))
             else afterToTypings co s))
          = (passes s + (if rerun then 2 else 1))%nat).
  rewrite finish_passes. destruct rerun.
  - rewrite worker_passes.
    change (passes (typingsStored typings (afterToTypings co s)))
      with (passes (afterToTypings co s)).
    rewrite toTypings_passes. lia.
  - rewrite toTypings_passes. lia.
Qed.

(** The typing files held after the call are the list given to
    [setTypings]. *)
Lemma updateGraph_typingFiles s :
  typingFiles (execM (Project_updateGraph co) s)
  = Some (snd (evalM (updateGraph_toTypings co) s)).
Proof.
  destruct (updateGraph_run s) as [_ Hx]. cbv zeta in Hx. rewrite Hx.
  rewrite (finish_preserved typingFiles) by done.
  destruct (arrayIsEqualTo (typingFiles s) (Some _)) eqn:E; simpl.
  - apply arrayIsEqualTo_spec in E. rewrite <- E.
    rewrite (toTypings_preserved co typingFiles) by done.
    by apply (firstPass_frame co typingFiles).
  - by rewrite (worker_frame co typingFiles).
Qed.

(** C4. Within one call of [updateGraph] the worker runs once or twice.
    The typings cache is asked after the first pass, with the unresolved
    imports collected and the [hasChanges] of that pass; the list it answers
    is compared element-wise with the typing files the project held, and the
    worker runs a second time exactly when the two differ; it never runs a
    third time, whatever the engine answers in the second pass. The project
    ends holding the list the cache answered. A worker pass is counted by
    its one call of [languageService.getProgram()]. *)
Theorem updateGraph_worker_runs_at_most_twice s :
  let hasChanges := evalM (updateGraph_firstPass co) s in
  let s1 := execM (updateGraph_firstPass co) s in
  let unresolvedImports := evalM (updateGraph_unresolvedImports co hasChanges) s1 in
  let s2 := execM (updateGraph_unresolvedImports co hasChanges) s1 in
  let asked :=
    set_trace (trace s2 ++ [GetTypingsForProject unresolvedImports hasChanges]) s2 in
  let typings := getTypingsForProject co asked unresolvedImports hasChanges in
  let rerun := negb (arrayIsEqualTo (typingFiles s) (Some typings)) in
  let s' := execM (Project_updateGraph co) s in
  (rerun = false <-> typingFiles s = Some typings)
  /\ countGetProgram (trace s')
     = (countGetProgram (trace s) + (if rerun then 2 else 1))%nat
  /\ (countGetProgram (trace s') <= countGetProgram (trace s) + 2)%nat
  /\ typingFiles s' = Some typings.
Proof.
  intros hasChanges s1 unresolvedImports s2 asked typings rerun s'.
  assert (Hanswer : snd (evalM (updateGraph_toTypings co) s) = typings)
    by (by rewrite toTypings_answer).
  pose proof (updateGraph_pass_count s) as Hcount. cbv zeta in Hcount.
  rewrite Hanswer in Hcount. fold rerun s' in Hcount.
  pose proof (updateGraph_typingFiles s) as Hheld. rewrite Hanswer in Hheld.
  split; [|split; [exact Hcount|split; [|exact Hheld]]].
  - subst rerun. rewrite negb_false_iff. apply arrayIsEqualTo_spec.
  - rewrite Hcount. destruct rerun; lia.
Qed.

(** C1. [updateGraph] answers [true] exactly when no change is detected,
    and bumps [projectStructureVersion] by exactly one when a change is
    detected, by nothing otherwise. A worker pass detects a change exactly
    when the project held no program before it, or the program after it is
    another object than the one before and the flag the old program bears is
    less than [Completely]; the call detects a change when its first pass
    does or, the typings having changed, its second pass does. *)
Theorem updateGraph_true_iff_unchanged s :
  let s1 := execM (updateGraph_firstPass co) s in
  let s' := execM (Project_updateGraph co) s in
  let typings := snd (evalM (updateGraph_toTypings co) s) in
  let rerun := negb (arrayIsEqualTo (typingFiles s) (Some typings)) in
  let detected := changeDetected s s1 || (rerun && changeDetected s1 s') in
  evalM (Project_updateGraph co) s = negb detected
  /\ projectStructureVersion s' = projectStructureVersion s + (if detected then 1 else 0).
Proof.
  intros s1 s' typings rerun detected.
  destruct (updateGraph_run s) as [He Hx]. cbv zeta in He, Hx.
  fold typings in He, Hx. fold rerun in He, Hx.
  set (sT := afterToTypings co s) in *.
  set (sD := typingsStored typings sT) in *.
  set (h1 := evalM (updateGraph_firstPass co) s) in *.
  set (h := if rerun then evalM (Project_updateGraphWorker co) sD || h1 else h1) in *.
  set (s3 := if rerun then execM (Project_updateGraphWorker co) sD else sT) in *.
  assert (Hh1 : h1 = changeDetected s s1) by apply firstPass_detects.
  assert (HsT : forall {V} (f : State -> V),
             (forall s t, f (set_trace t s) = f s) ->
             (forall s v, f (set_cachedUnresolvedImportsPerFile v s) = f s) ->
             (forall s v, f (set_lastCachedUnresolvedImportsList v s) = f s) ->
             f sT = f s1).
  { intros V f ? ? ?. by apply toTypings_preserved. }
  assert (Hs' : forall {V} (f : State -> V),
             (forall s t, f (set_trace t s) = f s) ->
             (forall s v, f (set_projectStructureVersion v s) = f s) ->
             f s' = f s3).
  { intros V f ? ?. unfold s'. rewrite Hx. by apply finish_preserved. }
  assert (Hh : h = detected).
  { subst h detected. rewrite <- Hh1. destruct rerun; simpl; [|by rewrite orb_false_r].
    rewrite worker_detects. rewrite orb_comm. f_equal.
    apply changeDetected_ext.
    - change (program sD) with (program sT). by apply HsT.
    - symmetry. by apply Hs'.
    - symmetry. by apply Hs'. }
  split; [by rewrite He, Hh|].
  unfold s'. rewrite Hx, finish_structureVersion, Hh. f_equal.
  subst s3. destruct rerun.
  - rewrite worker_preserves_structureVersion.
    change (projectStructureVersion sD) with (projectStructureVersion sT).
    rewrite (HsT _ projectStructureVersion) by done.
    by apply (firstPass_frame co projectStructureVersion).
  - rewrite (HsT _ projectStructureVersion) by done.
    by apply (firstPass_frame co projectStructureVersion).
Qed.

End GraphTheorems.

Lemma alter_last {A} (f : A -> A) (l : list A) x :
  alter f (length l) (l ++ [x]) = l ++ [f x].
Proof. induction l as [|y l IH]; simpl; [done|]. f_equal. exact IH. Qed.

Lemma lookup_last {A} (l : list A) x : (l ++ [x]) !! length l = Some x.
Proof. induction l as [|y l IH]; simpl; done. Qed.

Section Options.
Context (co : Collaborators).

(** The base setter, on options that are the last object of the store. *)
Lemma Project_setCompilerOptions_last store o s :
  optionsObjects s = store ++ [o] ->
  let s' := execM (Project_setCompilerOptions co (Some (length store))) s in
  compilerOptions s' = length store
  /\ exists o',
      optionsObjects s' = store ++ [o']
      /\ allowJs o' = allowJs o
      /\ maxNodeModuleJsDepth o' = maxNodeModuleJsDepth o
      /\ opt_plugins o' = opt_plugins o
      /\ otherSettings o' = otherSettings o
      /\ allowNonTsExtensions o' = Some true.
Proof.
  intros Hstore s'. subst s'.
  unfold Project_setCompilerOptions,
    Project_setInternalCompilerOptionsForEmittingJsFiles, Project_markAsDirty,
    updateOptionsAt, emit, when, execM, bind, get, modify, ret.
  simpl. rewrite Hstore, alter_last.
  repeat match goal with
  | |- context [if ?c then _ else _] => destruct c; simpl
  | |- context [match projectKind ?s with _ => _ end] => destruct (projectKind s); simpl
  end;
  rewrite ?alter_last; (split; [done|]); eexists; (split; [reflexivity|]); done.
Qed.
End Options.

Section Inferred.
Context (co : Collaborators).

Lemma optionsAt_last s store o :
  optionsObjects s = store ++ [o] -> optionsAt s (length store) = o.
Proof. intros H. unfold optionsAt. by rewrite H, lookup_last. Qed.

Lemma inferred_hands_over options s :
  execM (InferredProject_setCompilerOptions co (Some options)) s =
  execM (Project_setCompilerOptions co (Some (length (optionsObjects s))))
    (set_optionsObjects
       (optionsObjects s
        ++ [inferredOverrides (_isJsInferredProject s) (optionsAt s options)]) s).
Proof.
  unfold InferredProject_setCompilerOptions, cloneCompilerOptions.
  rewrite !execM_bind.
  unfold updateOptionsAt, execM, evalM, bind, get, modify, ret. simpl.
  rewrite (optionsAt_last (set_optionsObjects (optionsObjects s ++ [optionsAt s options]) s)
             (optionsObjects s) (optionsAt s options) eq_refl).
  unfold inferredOverrides.
  destruct (_isJsInferredProject s); simpl.
  - case_bool_decide; simpl; rewrite ?alter_last; simpl; rewrite ?alter_last; reflexivity.
  - rewrite alter_last. simpl. rewrite alter_last. reflexivity.
Qed.

(** C7, amended. [InferredProject.setCompilerOptions(options)] leaves every
    options object that existed before the call as it was (the caller's
    among them) and makes the project hold a new object, a clone of the
    incoming options. On the effective options [allowJs] is [true];
    [maxNodeModuleJsDepth] is cleared when the project is not JS-flavored,
    and when it is JS-flavored it is the depth the incoming options carry,
    or 2 when they carry none. *)
Theorem inferred_setCompilerOptions_effect options s :
  let s' := execM (InferredProject_setCompilerOptions co (Some options)) s in
  let incoming := optionsAt s options in
  let effective := optionsAt s' (compilerOptions s') in
  take (length (optionsObjects s)) (optionsObjects s') = optionsObjects s
  /\ compilerOptions s' = length (optionsObjects s)
  /\ opt_plugins effective = opt_plugins incoming
  /\ otherSettings effective = otherSettings incoming
  /\ allowJs effective = Some true
  /\ maxNodeModuleJsDepth effective =
     (if _isJsInferredProject s then Some (default 2 (maxNodeModuleJsDepth incoming))
      else None).
Proof.
  intros s' incoming effective. subst s' effective.
  rewrite inferred_hands_over.
  set (o := inferredOverrides (_isJsInferredProject s) (optionsAt s options)).
  set (sI := set_optionsObjects (optionsObjects s ++ [o]) s).
  destruct (Project_setCompilerOptions_last co (optionsObjects s) o sI eq_refl)
    as (Hc & o' & Hobj & Hjs & Hmax & Hpl & Hoth & _).
  rewrite Hc, (optionsAt_last _ _ _ Hobj), Hobj, Hjs, Hmax, Hpl, Hoth.
  split; [by rewrite take_app_length|]. split; [done|].
  subst o incoming. unfold inferredOverrides.
  destruct (_isJsInferredProject s); simpl.
  - destruct (maxNodeModuleJsDepth (optionsAt s options)) as [d|] eqn:E.
    + rewrite bool_decide_true by eauto. simpl. by rewrite E.
    + rewrite bool_decide_false by (intros [? ?]; done). simpl. done.
  - done.
Qed.
End Inferred.

(** ** The version of the index *)

Lemma existsb_isClear_app ops op :
  existsb isClear (ops ++ [op]) = existsb isClear ops || isClear op.
Proof. rewrite existsb_app. simpl. by rewrite orb_false_r. Qed.

Lemma sinceLastClear_snoc ops op :
  sinceLastClear (ops ++ [op]) =
  if isClear op then [] else sinceLastClear ops ++ [op].
Proof.
  induction ops as [|o ops IH]; simpl.
  - by destruct (isClear op).
  - rewrite existsb_isClear_app, IH.
    destruct (existsb isClear ops) eqn:E; simpl.
    + done.
    + destruct (isClear op); simpl; [done|]. by destruct (isClear o).
Qed.

(** The operations of the project on the index. *)

Lemma version_without_clear ops m :
  existsb isClear ops = false ->
  UnresolvedImportsMap.getVersion (foldl applyIndexOp m ops)
  = UnresolvedImportsMap.getVersion m + Z.of_nat (length ops).
Proof.
  revert m. induction ops as [|op ops IH]; intros m; simpl; [lia|].
  intros H. apply orb_false_iff in H as [Hop Hops]. rewrite IH by done.
  destruct op; [| |done]; unfold UnresolvedImportsMap.getVersion; simpl; lia.
Qed.

Lemma insertsAndRemovesOnly_preserves {A} (m : M A) :
  preserves cachedUnresolvedImportsPerFile m -> insertsAndRemovesOnly m.
Proof. intros H s. exists []. split; [done|]. apply H. Qed.

Lemma insertsAndRemovesOnly_bind {A B} (m : M A) (k : A -> M B) :
  insertsAndRemovesOnly m -> (forall a, insertsAndRemovesOnly (k a)) ->
  insertsAndRemovesOnly (bind m k).
Proof.
  intros Hm Hk s. destruct (Hm s) as (ops1 & Hc1 & H1).
  destruct (Hk (evalM m s) (execM m s)) as (ops2 & Hc2 & H2).
  exists (ops1 ++ ops2). split.
  - by rewrite existsb_app, Hc1, Hc2.
  - by rewrite execM_bind, H2, H1, foldl_app.
Qed.

Lemma insertsAndRemovesOnly_forEach {A} (l : list A) (body : A -> M unit) :
  (forall x, insertsAndRemovesOnly (body x)) -> insertsAndRemovesOnly (forEach l body).
Proof.
  intros H. induction l as [|x l IH]; simpl.
  - apply insertsAndRemovesOnly_preserves, preserves_ret.
  - apply insertsAndRemovesOnly_bind; [apply H | intros _; apply IH].
Qed.

Section IndexOps.
Context (co : Collaborators).

Lemma extract_insertsOnly file result :
  insertsAndRemovesOnly (Project_extractUnresolvedImportsFromSourceFile co file result).
Proof.
  intros s. unfold execM. rewrite extract_run.
  destruct (UnresolvedImportsMap.get _ _); simpl.
  - by exists [].
  - by exists [OpSet (sf_path file) (spec_unresolvedImports co file)].
Qed.

Lemma extractAll_insertsOnly files result :
  insertsAndRemovesOnly (extractAll co files result).
Proof.
  revert result. induction files as [|f files IH]; intros result; simpl.
  - apply insertsAndRemovesOnly_preserves, preserves_ret.
  - apply insertsAndRemovesOnly_bind; [apply extract_insertsOnly | intros ?; apply IH].
Qed.

Lemma unresolvedImports_insertsAndRemovesOnly h :
  insertsAndRemovesOnly (updateGraph_unresolvedImports co h).
Proof.
  unfold updateGraph_unresolvedImports.
  apply insertsAndRemovesOnly_bind;
    [apply insertsAndRemovesOnly_preserves; preserves_auto | intros _].
  apply insertsAndRemovesOnly_bind;
    [apply insertsAndRemovesOnly_preserves; preserves_auto | intros s].
  apply insertsAndRemovesOnly_bind.
  { apply insertsAndRemovesOnly_forEach. intros file s'.
    exists [OpRemove file]. by split. }
  intros _. apply insertsAndRemovesOnly_bind.
  { destruct (h || _); simpl; [|apply insertsAndRemovesOnly_preserves, preserves_ret].
    apply insertsAndRemovesOnly_bind;
      [apply insertsAndRemovesOnly_preserves; preserves_auto | intros s'].
    apply insertsAndRemovesOnly_bind; [apply extractAll_insertsOnly | intros ?].
    apply insertsAndRemovesOnly_preserves. preserves_auto. }
  intros _. apply insertsAndRemovesOnly_preserves. preserves_auto.
Qed.

Lemma worker_insertsAndRemovesOnly : insertsAndRemovesOnly (Project_updateGraphWorker co).
Proof. apply insertsAndRemovesOnly_preserves. by apply worker_frame. Qed.

Lemma Project_updateGraph_insertsAndRemovesOnly :
  insertsAndRemovesOnly (Project_updateGraph co).
Proof.
  unfold Project_updateGraph, updateGraph_toTypings, updateGraph_firstPass,
    updateGraph_secondPass, Project_setTypings, Project_markAsDirty, updateGraph_finish.
  repeat first
    [ apply worker_insertsAndRemovesOnly
    | apply unresolvedImports_insertsAndRemovesOnly
    | (apply insertsAndRemovesOnly_bind; [|intros ?])
    | (apply insertsAndRemovesOnly_preserves; preserves_auto; fail)
    | match goal with
      | |- insertsAndRemovesOnly (if ?c then _ else _) => destruct c
      end ].
Qed.

(** The version of the index never decreases in a graph update. *)
Lemma Project_updateGraph_version_grows s :
  UnresolvedImportsMap.getVersion (cachedUnresolvedImportsPerFile s)
  <= UnresolvedImportsMap.getVersion
       (cachedUnresolvedImportsPerFile (execM (Project_updateGraph co) s)).
Proof.
  destruct (Project_updateGraph_insertsAndRemovesOnly s) as (ops & Hc & ->).
  rewrite version_without_clear by done. lia.
Qed.

End IndexOps.

(** C9, amended. Every insertion and every removal raises the version of the
    index by exactly one, and wholesale clearing resets it to 0: after any
    sequence of these operations the version is the number of insertions and
    removals since the last clearing, counted from the version before the
    sequence when it clears nothing. So the version never decreases along
    insertions and removals, and may decrease only at a clearing. *)
Theorem index_version_counts_since_clear (ops : list IndexOp) (m : UnresolvedImportsMap.t) :
  UnresolvedImportsMap.getVersion (foldl applyIndexOp m ops)
  = (if existsb isClear ops then 0 else UnresolvedImportsMap.getVersion m)
    + Z.of_nat (length (sinceLastClear ops))
  /\ (if existsb isClear ops then True
      else UnresolvedImportsMap.getVersion m
           <= UnresolvedImportsMap.getVersion (foldl applyIndexOp m ops)).
Proof.
  assert (Hcount : UnresolvedImportsMap.getVersion (foldl applyIndexOp m ops)
    = (if existsb isClear ops then 0 else UnresolvedImportsMap.getVersion m)
      + Z.of_nat (length (sinceLastClear ops))).
  { induction ops as [|op ops IH] using rev_ind; simpl; [lia|].
    rewrite foldl_app, existsb_isClear_app, sinceLastClear_snoc. simpl.
    destruct op; simpl; unfold UnresolvedImportsMap.getVersion in *; simpl;
      rewrite ?orb_false_r, ?orb_true_r, ?length_app; simpl; try rewrite IH; lia. }
  split; [exact Hcount|].
  destruct (existsb isClear ops) eqn:E; [done|].
  rewrite version_without_clear by done. lia.
Qed.

Section Setter.
Context (co : Collaborators).

(** What the base setter does to the index. *)
Lemma Project_setCompilerOptions_index newOptions s :
  let s1 := updateOptionsAt newOptions (set_allowNonTsExtensions (Some true)) s in
  cachedUnresolvedImportsPerFile (execM (Project_setCompilerOptions co (Some newOptions)) s)
  = if changesAffectModuleResolution co (optionsAt s1 (compilerOptions s))
         (optionsAt s1 newOptions)
    then UnresolvedImportsMap.clear (cachedUnresolvedImportsPerFile s)
    else cachedUnresolvedImportsPerFile s.
Proof.
  intros s1. subst s1.
  unfold Project_setCompilerOptions,
    Project_setInternalCompilerOptionsForEmittingJsFiles, Project_markAsDirty,
    emit, when, execM, bind, get, modify, ret.
  simpl.
  repeat match goal with
  | |- context [if ?c then _ else _] => destruct c; simpl
  | |- context [match projectKind ?s with _ => _ end] => destruct (projectKind s); simpl
  end; reflexivity.
Qed.

(** C10. The base [setCompilerOptions] called with [undefined] does
    nothing: the state after is the state before; in particular the options
    the project holds and every options object, the index of unresolved
    imports, the state version and the calls made so far (none on the
    resolution cache is added) are unchanged. *)
Theorem Project_setCompilerOptions_undefined s :
  let s' := execM (Project_setCompilerOptions co None) s in
  s' = s
  /\ compilerOptions s' = compilerOptions s
  /\ optionsObjects s' = optionsObjects s
  /\ cachedUnresolvedImportsPerFile s' = cachedUnresolvedImportsPerFile s
  /\ projectStateVersion s' = projectStateVersion s
  /\ trace s' = trace s.
Proof. repeat split. Qed.

(** C5. [ConfiguredProject.updateGraph], when the [pendingReload] latch is
    set, clears the latch, calls [projectService.reloadConfiguredProject]
    on the project and answers [true], the state being what the reload
    leaves, without any step of the base algorithm; when the latch is not
    set it is the base [updateGraph]. *)
Theorem ConfiguredProject_updateGraph_latch s :
  ConfiguredProject_updateGraph co s =
  if pendingReload s then
    (true,
     reloadConfiguredProject co
       (set_trace (trace s ++ [ReloadConfiguredProject]) (set_pendingReload false s)))
  else Project_updateGraph co s.
Proof.
  unfold ConfiguredProject_updateGraph, bind, get. simpl.
  destruct (pendingReload s); reflexivity.
Qed.

End Setter.

(** ** Plugins *)

(** C8. A plugin that throws a Symbol from [create] escapes the [catch]
    of [enableProxy]: the block renders what was thrown in a template
    literal (line 1118), rendering a Symbol throws a TypeError, and that
    TypeError leaves [enableProxy] with the project as it was and nothing
    logged. It leaves [enablePlugins] as well: for a config file that lists
    this plugin and then a plugin that wraps, the call ends with the
    TypeError and the second plugin is never activated. *)
Theorem enableProxy_rendering_throw_escapes entry s :
  let typeError := TypeError (js "Cannot convert a Symbol value to a string") in
  let failing := Factory (fun _ => inr demo_symbolPlugin) in
  let loaded := ConfiguredProject_enablePlugins demo example_symbolFirst in
  Thrown_toString ThrownSymbol = inl typeError
  /\ ConfiguredProject_enableProxy failing entry s = (inl typeError, s)
  /\ fst loaded = inl typeError
  /\ plugins (snd loaded) = []
  /\ languageService (snd loaded) = languageService example_symbolFirst.
Proof.
  cbv zeta. split; [reflexivity|]. split; [reflexivity|].
  vm_compute. repeat split.
Qed.

(** ** The delta report *)

Lemma elem_of_setAdd keys k x : x ∈ setAdd keys k <-> x ∈ keys \/ x = k.
Proof.
  unfold setAdd. case_bool_decide as Hk.
  - split; [by left|]. by intros [?| ->].
  - rewrite elem_of_app, list_elem_of_singleton. done.
Qed.

Lemma elem_of_foldl_setAdd l acc x : x ∈ foldl setAdd acc l <-> x ∈ acc \/ x ∈ l.
Proof.
  revert acc. induction l as [|k l IH]; intros acc; simpl.
  - split; [by left|]. intros [?|H]; [done|]. by apply elem_of_nil in H.
  - rewrite IH, elem_of_setAdd, elem_of_cons. tauto.
Qed.

Lemma elem_of_arrayToSet l x : x ∈ arrayToSet l <-> x ∈ l.
Proof.
  unfold arrayToSet. rewrite elem_of_foldl_setAdd. split; [|by right].
  intros [H|H]; [|done]. by apply elem_of_nil in H.
Qed.

Section Delta.
Context (co : Collaborators).

(** C2. [getChangesSinceVersion(lastKnownVersion)], after updating the
    graph, answers in one of three shapes. When nothing was reported before,
    or [lastKnownVersion] is absent or is not the last reported version: the
    info and [files], the current list of file names, without [changes].
    When it is the last reported version, the structure version equals it
    and no file update was registered since the previous call: the info
    only. Otherwise: the info and [changes], without [files], where [added]
    holds the current names that were not reported, [removed] the reported
    names that are not current, and [updated] the names registered as
    updated. The version in the info is the structure version. *)
Theorem getChangesSinceVersion_shapes lastKnownVersion s :
  let s1 := execM (updateGraph co) s in
  let answer := evalM (Project_getChangesSinceVersion co lastKnownVersion) s in
  let current := Project_getFileNames co false false s1 in
  info_version (pf_info answer) = projectStructureVersion s1
  /\ match lastReportedFileNames s1 with
     | None => pf_files answer = Some current /\ pf_changes answer = None
     | Some reported =>
       if bool_decide (lastKnownVersion = Some (lastReportedVersion s1)) then
         if (projectStructureVersion s1 =? lastReportedVersion s1)
            && negb (bool_decide (is_Some (updatedFileNames s1)))
         then pf_files answer = None /\ pf_changes answer = None
         else
           pf_files answer = None
           /\ exists changes,
               pf_changes answer = Some changes
               /\ (forall f, f ∈ added changes <-> f ∈ current /\ f ∉ reported)
               /\ (forall f, f ∈ removed changes <-> f ∈ reported /\ f ∉ current)
               /\ updated changes = default [] (updatedFileNames s1)
       else pf_files answer = Some current /\ pf_changes answer = None
     end.
Proof.
  intros s1 answer current. subst answer.
  unfold Project_getChangesSinceVersion. rewrite evalM_bind. fold s1.
  unfold evalM, bind, get, modify, ret. simpl. fold current.
  destruct (lastReportedFileNames s1) as [reported|]; simpl; [|done].
  case_bool_decide; simpl; [|done].
  destruct ((projectStructureVersion s1 =? lastReportedVersion s1)
            && negb (bool_decide (is_Some (updatedFileNames s1)))); simpl; [done|].
  split; [done|]. split; [done|]. eexists. split; [reflexivity|]. simpl.
  split; [|split; [|done]].
  - intros f. rewrite list_elem_of_filter, elem_of_arrayToSet.
    unfold setHas. rewrite negb_True, bool_decide_spec. tauto.
  - intros f. rewrite list_elem_of_filter. unfold setHas.
    rewrite negb_True, bool_decide_spec, elem_of_arrayToSet. tauto.
Qed.
End Delta.

(** ** Slashes in the recorded names *)

Lemma countSlashes_unresolvedImportName name :
  JsString.countSlashes (unresolvedImportName name)
  = if isScoped (JsString.trim name)
    then Nat.min 1 (JsString.countSlashes (JsString.trim name))
    else 0%nat.
Proof.
  rewrite unresolvedImportName_spec. unfold spec_packagePrefix.
  rewrite countSlashes_prefix. by destruct (isScoped (JsString.trim name)).
Qed.

(** C6, amended. Every string the extraction emits for an unresolved,
    non-relative specifier is the name computed from that specifier, and its
    '/' count is decided by the specifier once trimmed: none when the trimmed
    specifier does not start with '@'; when it starts with '@', one if the
    trimmed specifier contains a '/' and none if it contains no '/'. *)
Theorem emitted_slash_count co file s :
  Forall2
    (fun name emitted =>
       emitted = unresolvedImportName name
       /\ JsString.countSlashes emitted
          = if isScoped (JsString.trim name)
            then Nat.min 1 (JsString.countSlashes (JsString.trim name))
            else 0%nat)
    (unresolvedSpecifiers co file)
    (evalM (Project_extractUnresolvedImportsFromSourceFile co file [])
       (set_cachedUnresolvedImportsPerFile UnresolvedImportsMap.create s)).
Proof.
  unfold evalM. rewrite extract_run. simpl.
  unfold UnresolvedImportsMap.get. simpl. rewrite lookup_empty. simpl.
  unfold unresolvedSpecifiers, spec_unresolvedImports, pickedNames.
  induction (default [] (resolvedModules file)) as [|[name rm] entries IH]; simpl.
  - constructor.
  - destruct rm as [m|]; simpl; [exact IH|].
    destruct (isExternalModuleNameRelative co name); simpl; [exact IH|].
    constructor; [|exact IH]. rewrite <- unresolvedImportName_spec.
    split; [done|]. apply countSlashes_unresolvedImportName.
Qed.

(** ** Counterexamples to the claims as they were stated *)

(** C6 as stated fails twice. The scoped specifier "@scope" is emitted with
    no '/' at all, not with exactly one; and the specifier " @a/b/c", which
    does not start with '@', is emitted as "@a/b", with a '/'. *)
Lemma emitted_slash_count_as_stated_fails :
  evalM (Project_extractUnresolvedImportsFromSourceFile demo example_slashFile [])
    (newProject (js "p") Inferred) = [js "@scope"; js "@a/b"]
  /\ (JsString.charCodeAt (js "@scope") 0 = Some CharacterCodes_at
      /\ JsString.countSlashes (js "@scope") <> 1%nat)
  /\ (JsString.charCodeAt (js " @a/b/c") 0 <> Some CharacterCodes_at
      /\ JsString.countSlashes (js "@a/b") <> 0%nat).
Proof. vm_compute. repeat split; discriminate. Qed.

(** C7 as stated fails: on a JS-flavored inferred project, incoming options
    that carry the depth 5 keep it; the depth is not set to 2. *)
Lemma inferred_depth_as_stated_fails :
  let s' := execM (InferredProject_setCompilerOptions demo (Some 1%nat)) example_jsInferred in
  _isJsInferredProject example_jsInferred = true
  /\ maxNodeModuleJsDepth (optionsAt example_jsInferred 1%nat) = Some 5
  /\ maxNodeModuleJsDepth (optionsAt s' (compilerOptions s')) <> Some 2.
Proof. vm_compute. repeat split; discriminate. Qed.

(** C9 as stated fails: an insertion followed by a clearing takes the
    version from 1 back to 0. On a project: the index holds one entry, at
    version 1; setting options that differ in [allowJs] clears it, and the
    version observed is 0. *)
Lemma index_version_as_stated_fails :
  let inserted := applyIndexOp UnresolvedImportsMap.create (OpSet (js "a.ts") []) in
  let s' := execM (Project_setCompilerOptions demo (Some 1%nat)) example_indexed in
  UnresolvedImportsMap.getVersion (applyIndexOp inserted OpClear)
  < UnresolvedImportsMap.getVersion inserted
  /\ UnresolvedImportsMap.getVersion (cachedUnresolvedImportsPerFile example_indexed) = 1
  /\ UnresolvedImportsMap.getVersion (cachedUnresolvedImportsPerFile s') = 0
  /\ UnresolvedImportsMap.getVersion (cachedUnresolvedImportsPerFile s')
     < UnresolvedImportsMap.getVersion (cachedUnresolvedImportsPerFile example_indexed).
Proof. vm_compute. repeat split. Qed.

(** ** The scenarios of the specification, run on the model *)

Example scoped_import_scenario :
  Project_extractUnresolvedImportsFromSourceFile demo example_scopedFile []
    (newProject (js "p") Inferred)
  = ([js "@scope/pkg"],
     set_cachedUnresolvedImportsPerFile
       (UnresolvedImportsMap.set (js "a.ts") [js "@scope/pkg"] UnresolvedImportsMap.create)
       (newProject (js "p") Inferred)).
Proof. reflexivity. Qed.

Example first_update_scenario :
  evalM (updateGraph demo) example_inferred = false
  /\ projectStructureVersion (execM (updateGraph demo) example_inferred) = 1
  /\ Project_getFileNames demo false false (execM (updateGraph demo) example_inferred)
     = [js "a.ts"]
  /\ evalM (updateGraph demo) (execM (updateGraph demo) example_inferred) = true
  /\ projectStructureVersion
       (execM (updateGraph demo) (execM (updateGraph demo) example_inferred)) = 1.
Proof. vm_compute. repeat split. Qed.

Example flip_js_scenario :
  let s := execM (InferredProject_toggleJsInferredProject demo true)
             (newProject (js "p") Inferred) in
  let s' := execM (InferredProject_toggleJsInferredProject demo false) s in
  allowJs (optionsAt s (compilerOptions s)) = Some true
  /\ maxNodeModuleJsDepth (optionsAt s (compilerOptions s)) = Some 2
  /\ maxNodeModuleJsDepth (optionsAt s' (compilerOptions s')) = None.
Proof. repeat split. Qed.

Example change_delta_scenario :
  let first := Project_getChangesSinceVersion demo None example_inferred in
  let s2 := execM (Project_addRoot (demo_scriptInfo (js "b.ts"))) (snd first) in
  let second := Project_getChangesSinceVersion demo (Some 1) s2 in
  let third := Project_getChangesSinceVersion demo (Some 2) (snd second) in
  pf_files (fst first) = Some [js "a.ts"]
  /\ pf_changes (fst second)
     = Some {| added := [js "b.ts"]; removed := []; updated := [] |}
  /\ info_version (pf_info (fst second)) = 2
  /\ pf_files (fst third) = None /\ pf_changes (fst third) = None.
Proof. vm_compute. repeat split. Qed.

Example plugin_wrapping_scenario :
  let s := execM (ConfiguredProject_enablePlugins demo) example_configured in
  evalM (ConfiguredProject_enablePlugins demo) example_configured = inr tt
  /\ languageService s = ServiceObject 100 /\ plugins s = [demo_wrappingPlugin].
Proof. vm_compute. repeat split. Qed.
